(** * abyss.h (v0.4): region allocators Arena, Surge and Totem

  A shallow embedding of [libs/abyss.h] and the properties of its
  allocators.  The header is modelled in its default build: safety checks
  on ([ABYSS_UNSAFE_MODE] undefined), no locks ([ABYSS_THREAD_SAFE_MODE]
  undefined).  The handle representation ([ABYSS_HANDLE_MODE]) and the
  numbers the C compiler fixes ([sizeof], alignment) are fields of a
  [build] record, so every function below is parametric in them. *)

From Stdlib Require Import ZArith Lia Bool List.
From stdpp Require Import base option gmap.
Import ListNotations.

Local Open Scope Z_scope.

(** ** Machine integers *)

Module CInt.

(** [size_t] and pointers are 64 bits wide, [unsigned short] 16. *)
Definition size_t (z : Z) : Z := z mod 2 ^ 64.
Definition ushort (z : Z) : Z := z mod 2 ^ 16.

(** The value of a 16-bit pattern read as [short]. *)
Definition short (z : Z) : Z :=
  let u := z mod 2 ^ 16 in if u <? 2 ^ 15 then u else u - 2 ^ 16.

(** The value of a 64-bit pattern read as [intptr_t]. *)
Definition intptr_t (z : Z) : Z :=
  let u := z mod 2 ^ 64 in if u <? 2 ^ 63 then u else u - 2 ^ 64.

End CInt.
Import CInt.

(** ** Build configuration *)

(** What the preprocessor and the compiler decide.  [sizeof_slot] is the
  size of one element of [Abyss_Totem_s.allocators], the anonymous struct
  of a [void*] and an [abyss_allocator_t].  The flexible array member
  [buf] of an Arena or a Surge starts at [sizeof] of its struct. *)
Record build := {
  ABYSS_HANDLE_MODE : bool;
  ABYSS_DATA_ALIGN : Z;
  sizeof_Arena : Z;
  sizeof_Surge : Z;
  sizeof_Totem : Z;
  sizeof_slot : Z;
  sizeof_voidp : Z;
  sizeof_size_t : Z
}.

(** The usual 64-bit Unix target: [Abyss_Arena] is two [size_t],
  [Abyss_Surge] three, [Abyss_Totem] two [unsigned short] padded to the
  alignment of its slots, and a slot is a pointer and an [enum] padded
  to 16 bytes. *)
Definition lp64 (handle_mode : bool) : build := {|
  ABYSS_HANDLE_MODE := handle_mode;
  ABYSS_DATA_ALIGN := 8;
  sizeof_Arena := 16;
  sizeof_Surge := 24;
  sizeof_Totem := 8;
  sizeof_slot := 16;
  sizeof_voidp := 8;
  sizeof_size_t := 8
|}.

(** Diagnostics written to [stderr] by [_ABYSS_WARN]. *)
Inductive warning :=
| WARN_arena_no_mem      (* not enough mem provided for the arena struct... *)
| WARN_surge_no_mem      (* not enough mem provided for the surge struct... *)
| WARN_totem_no_mem      (* not enough mem provided for the totem struct... *)
| WARN_invalid_free      (* invalid free, out of the allocated block mem range, ... *)
| WARN_double_free       (* invalid double free *)
| WARN_totem_invalid_free. (* invalid free, the allocatos inside the totem didn't have it in range, ... *)

Section Allocators.

Variable B : build.

(** *** Handles *)

(** [abyss_handle] is [size_t] in handle mode and [void*] otherwise; both
    are 64-bit values here, and [NULL] is address 0. *)
Definition sizeof_handle : Z :=
  if ABYSS_HANDLE_MODE B then sizeof_size_t B else sizeof_voidp B.

Definition abyss_handle_NULL : Z := 0.

Definition abyss_handle_is_NULL (val : Z) : bool := val =? 0.

Definition abyss_handle_switch (ptr off : Z) : Z :=
  if ABYSS_HANDLE_MODE B then off else ptr.

Definition abyss_handle_get_hdl (allocator ptr : Z) : Z :=
  if ABYSS_HANDLE_MODE B
  then (if ptr =? 0 then 0 else size_t (ptr - allocator))
  else ptr.

Definition abyss_handle_get_ptr (allocator hdl : Z) : Z :=
  if ABYSS_HANDLE_MODE B
  then (if hdl =? 0 then 0 else size_t (allocator + hdl))
  else hdl.

Definition abyss_handle_rel (hdl off : Z) : Z :=
  if hdl =? 0 then 0 else size_t (hdl + off).

(** *** Alignment *)

(** [(((n) + (align) - 1) & -(align))], computed in [size_t]. *)
Definition _ABYSS_ROUND_UP (n align : Z) : Z :=
  Z.land (size_t (n + align - 1)) (size_t (- align)).

Definition _ABYSS_ROUND_S (sizeof_allocator : Z) : Z :=
  _ABYSS_ROUND_UP sizeof_allocator (ABYSS_DATA_ALIGN B).

(** *** Arena *)

Record Abyss_Arena := {
  arena_offset : Z;
  arena_size : Z
}.

(** [&arena->buf[0]] for the arena at address [arena]. *)
Definition arena_buf (arena : Z) : Z := size_t (arena + sizeof_Arena B).

(** The struct written at [buf], or [None] for a [NULL] result. *)
Definition abyss_arena_init (buf size : Z)
  : option Abyss_Arena * list warning :=
  if size <? sizeof_Arena B then (None, [WARN_arena_no_mem])
  else (Some {| arena_size := size_t (size - sizeof_Arena B);
                arena_offset :=
                  size_t (_ABYSS_ROUND_S (sizeof_Arena B) - sizeof_Arena B) |},
        []).

Definition abyss_arena_alloc (arena : Z) (a : Abyss_Arena) (size : Z)
  : Z * Abyss_Arena :=
  if size =? 0 then
    (abyss_handle_switch (size_t (arena + arena_offset a)) (arena_offset a), a)
  else if size_t (arena_size a - arena_offset a) <? size then
    (abyss_handle_NULL, a)
  else
    let hdl :=
      abyss_handle_switch
        (size_t (arena_buf arena + arena_offset a))
        (size_t (arena_offset a + sizeof_Arena B)) in
    (hdl,
     {| arena_offset :=
          _ABYSS_ROUND_UP (size_t (arena_offset a + size)) (ABYSS_DATA_ALIGN B);
        arena_size := arena_size a |}).

Definition _abyss_arena_contains (arena : Z) (a : Abyss_Arena) (ptr : Z)
  : bool :=
  let delta := intptr_t (arena_buf arena - ptr) in
  (0 <=? delta) && (size_t delta <? arena_offset a).

Definition abyss_arena_free (arena : Z) (a : Abyss_Arena) (hdl : Z)
  : Abyss_Arena * list warning :=
  if abyss_handle_is_NULL hdl then (a, [])
  else if negb (_abyss_arena_contains arena a (abyss_handle_get_ptr arena hdl))
  then (a, [WARN_invalid_free])
  else (a, []).

Definition abyss_arena_reset (a : Abyss_Arena) : Abyss_Arena :=
  {| arena_offset :=
       size_t (_ABYSS_ROUND_S (sizeof_Arena B) - sizeof_Arena B);
     arena_size := arena_size a |}.

(** [arena_free_mem] of the benchmark program: the space left. *)
Definition arena_free_mem (a : Abyss_Arena) : Z :=
  size_t (arena_size a - arena_offset a).

(** *** Surge *)

Record Abyss_Surge := {
  surge_size : Z;
  surge_offset : Z;
  surge_count : Z
}.

Definition surge_buf (surge : Z) : Z := size_t (surge + sizeof_Surge B).

Definition abyss_surge_init (buf size : Z)
  : option Abyss_Surge * list warning :=
  if size <? sizeof_Surge B then (None, [WARN_surge_no_mem])
  else (Some {| surge_size := size_t (size - sizeof_Surge B);
                surge_offset :=
                  size_t (_ABYSS_ROUND_UP (sizeof_Arena B) (ABYSS_DATA_ALIGN B)
                          - sizeof_Arena B);
                surge_count := 0 |},
        []).

Definition abyss_surge_alloc (surge : Z) (s : Abyss_Surge) (size : Z)
  : Z * Abyss_Surge :=
  if size =? 0 then
    (abyss_handle_switch (size_t (surge + surge_offset s)) (surge_offset s), s)
  else if size_t (surge_size s - surge_offset s) <? size then
    (abyss_handle_NULL, s)
  else
    let hdl :=
      abyss_handle_switch
        (size_t (surge_buf surge + surge_offset s))
        (size_t (surge_offset s + sizeof_Surge B)) in
    (hdl,
     {| surge_size := surge_size s;
        surge_offset :=
          _ABYSS_ROUND_UP (size_t (surge_offset s + size)) (ABYSS_DATA_ALIGN B);
        surge_count := size_t (surge_count s + 1) |}).

Definition _abyss_surge_contains (surge : Z) (s : Abyss_Surge) (ptr : Z)
  : bool :=
  let delta := intptr_t (surge_buf surge - ptr) in
  (0 <=? delta) && (size_t delta <? surge_offset s).

Definition abyss_surge_free (surge : Z) (s : Abyss_Surge) (hdl : Z)
  : Abyss_Surge * list warning :=
  if abyss_handle_is_NULL hdl then (s, [])
  else if negb (_abyss_surge_contains surge s (abyss_handle_get_ptr surge hdl))
  then (s, [WARN_invalid_free])
  else if surge_count s =? 0 then (s, [WARN_double_free])
  else
    let offset' :=
      if surge_count s =? 1
      then size_t (_ABYSS_ROUND_S (sizeof_Surge B) - sizeof_Arena B)
      else surge_offset s in
    ({| surge_size := surge_size s;
        surge_offset := offset';
        surge_count := size_t (surge_count s - 1) |}, []).

Definition abyss_surge_reset (s : Abyss_Surge) : Abyss_Surge :=
  {| surge_size := surge_size s;
     surge_offset := size_t (_ABYSS_ROUND_S (sizeof_Surge B) - sizeof_Arena B);
     surge_count := 0 |}.

Definition surge_free_mem (s : Abyss_Surge) : Z :=
  size_t (surge_size s - surge_offset s).

(** *** Totem *)

Inductive abyss_allocator_t := ABYSS_SURGE_T | ABYSS_ARENA_T | ABYSS_TOTEM_T.

(** The enumerators' values, as [abyss_totem_pop] stores them in [*type]. *)
Definition allocator_t_value (ty : abyss_allocator_t) : Z :=
  match ty with ABYSS_SURGE_T => 1 | ABYSS_ARENA_T => 2 | ABYSS_TOTEM_T => 3 end.

Record slot := {
  slot_ptr : Z;
  slot_type : abyss_allocator_t
}.

(** [allocators] is the trailing array seen through its index: C does not
    bound the index, so a write at any index lands, and an index that was
    never written has no defined content. *)
Record Abyss_Totem := {
  totem_head : Z;
  totem_capacity : Z;
  totem_allocators : gmap Z slot
}.

Definition ABYSS_TOTEM_SIZE (capacity : Z) : Z :=
  size_t (sizeof_Totem B + sizeof_voidp B * capacity).

Definition abyss_totem_init (buf size : Z)
  : option Abyss_Totem * list warning :=
  if size <? sizeof_Totem B then (None, [WARN_totem_no_mem])
  else (Some {| totem_capacity :=
                  ushort (size_t (size - sizeof_Totem B) / sizeof_handle);
                totem_head := ushort (-1);
                totem_allocators := ∅ |},
        []).

Definition abyss_totem_push
  (t : Abyss_Totem) (allocator : Z) (type : abyss_allocator_t)
  : Z * Abyss_Totem :=
  if totem_capacity t <=? ushort (totem_head t + 1) then (abyss_handle_NULL, t)
  else
    let head' := ushort (totem_head t + 1) in
    (allocator,
     {| totem_head := head';
        totem_capacity := totem_capacity t;
        totem_allocators :=
          <[head' := {| slot_ptr := allocator; slot_type := type |}]>
            (totem_allocators t) |}).

(** [allocators[dst] = allocators[src]] *)
Definition copy_slot (m : gmap Z slot) (dst src : Z) : gmap Z slot :=
  match m !! src with
  | Some s => <[dst := s]> m
  | None => delete dst m
  end.

(** [n] rounds of [allocators[i] = allocators[i + 1]; i++] *)
Fixpoint shift_down (n : nat) (i : Z) (m : gmap Z slot) : gmap Z slot :=
  match n with
  | O => m
  | S n' => shift_down n' (i + 1) (copy_slot m i (i + 1))
  end.

(** The result is the pointer returned, the value stored through [type]
    when the function gets that far, and the totem afterwards; [None] when
    the function reads a slot that was never written. *)
Definition abyss_totem_pop (t : Abyss_Totem) (indx : Z)
  : option (Z * option Z * Abyss_Totem) :=
  let indx := if indx <? 0 then totem_head t + indx + 1 else indx in
  if (totem_capacity t <? indx) || (short (totem_head t) <? 0)
  then Some (0, None, t)
  else
    s ← totem_allocators t !! indx;
    Some (slot_ptr s, Some (allocator_t_value (slot_type s)),
          {| totem_head := ushort (totem_head t - 1);
             totem_capacity := totem_capacity t;
             totem_allocators :=
               shift_down (Z.to_nat (totem_head t - indx)) indx
                 (totem_allocators t) |}).

(** *** The store of allocators a Totem points into *)

Inductive object :=
| ObjArena (a : Abyss_Arena)
| ObjSurge (s : Abyss_Surge)
| ObjTotem (t : Abyss_Totem).

(** A cast of a child pointer to the type its tag names; a pointer to
    nothing, or to an allocator of another type, has no defined result. *)
Definition load_arena (h : gmap Z object) (p : Z) : option Abyss_Arena :=
  match h !! p with Some (ObjArena a) => Some a | _ => None end.

Definition load_surge (h : gmap Z object) (p : Z) : option Abyss_Surge :=
  match h !! p with Some (ObjSurge s) => Some s | _ => None end.

Definition load_totem (h : gmap Z object) (p : Z) : option Abyss_Totem :=
  match h !! p with Some (ObjTotem t) => Some t | _ => None end.

(** The [switch] of [abyss_totem_alloc]; [rec] is the call on a nested
    totem. *)
Definition alloc_child
  (rec : Z -> Z -> gmap Z object -> option (Z * gmap Z object))
  (s : slot) (size : Z) (h : gmap Z object)
  : option (Z * gmap Z object) :=
  match slot_type s with
  | ABYSS_ARENA_T =>
      a ← load_arena h (slot_ptr s);
      let '(hdl, a') := abyss_arena_alloc (slot_ptr s) a size in
      Some (hdl, <[slot_ptr s := ObjArena a']> h)
  | ABYSS_SURGE_T =>
      s0 ← load_surge h (slot_ptr s);
      let '(hdl, s') := abyss_surge_alloc (slot_ptr s) s0 size in
      Some (hdl, <[slot_ptr s := ObjSurge s']> h)
  | ABYSS_TOTEM_T => rec (slot_ptr s) size h
  end.

(** [for ( ; 0 <= i; i-- )] with [n = i + 1] and [hdl] the handle so far. *)
Fixpoint alloc_loop
  (rec : Z -> Z -> gmap Z object -> option (Z * gmap Z object))
  (totem size : Z) (n : nat) (hdl : Z) (h : gmap Z object)
  : option (Z * gmap Z object) :=
  match n with
  | O => Some (hdl, h)
  | S i =>
      t ← load_totem h totem;
      s ← totem_allocators t !! Z.of_nat i;
      '(hdl', h') ← alloc_child rec s size h;
      if abyss_handle_is_NULL hdl' then Some (hdl', h')
      else alloc_loop rec totem size i hdl' h'
  end.

(** [fuel] bounds the depth of nested totems; the loop starts at
    [int i = totem->head], the [unsigned short] converted to [int]. *)
Fixpoint abyss_totem_alloc
  (fuel : nat) (totem size : Z) (h : gmap Z object)
  : option (Z * gmap Z object) :=
  match fuel with
  | O => None
  | S fuel' =>
      t ← load_totem h totem;
      alloc_loop (abyss_totem_alloc fuel') totem size
        (Z.to_nat (totem_head t + 1)) abyss_handle_NULL h
  end.

(** One [case] of the [switch] of [_abyss_totem_free]: whether the child
    took the pointer, the store and the diagnostics of the child's free. *)
Definition free_child
  (rec : Z -> Z -> gmap Z object -> option (bool * gmap Z object * list warning))
  (s : slot) (ptr : Z) (h : gmap Z object)
  : option (bool * gmap Z object * list warning) :=
  match slot_type s with
  | ABYSS_ARENA_T =>
      a ← load_arena h (slot_ptr s);
      if _abyss_arena_contains (slot_ptr s) a ptr then
        let hdl := abyss_handle_get_hdl (slot_ptr s) ptr in
        let '(a', w) := abyss_arena_free (slot_ptr s) a hdl in
        Some (true, <[slot_ptr s := ObjArena a']> h, w)
      else Some (false, h, [])
  | ABYSS_SURGE_T =>
      s0 ← load_surge h (slot_ptr s);
      if _abyss_surge_contains (slot_ptr s) s0 ptr then
        let hdl := abyss_handle_get_hdl (slot_ptr s) ptr in
        let '(s', w) := abyss_surge_free (slot_ptr s) s0 hdl in
        Some (true, <[slot_ptr s := ObjSurge s']> h, w)
      else Some (false, h, [])
  | ABYSS_TOTEM_T => rec (slot_ptr s) ptr h
  end.

Fixpoint free_loop
  (rec : Z -> Z -> gmap Z object -> option (bool * gmap Z object * list warning))
  (totem ptr : Z) (n : nat) (h : gmap Z object)
  : option (bool * gmap Z object * list warning) :=
  match n with
  | O => Some (false, h, [])
  | S i =>
      t ← load_totem h totem;
      s ← totem_allocators t !! Z.of_nat i;
      '(found, h', w) ← free_child rec s ptr h;
      if (found : bool) then Some (true, h', w)
      else
        '(found', h'', w') ← free_loop rec totem ptr i h';
        Some (found', h'', w ++ w')
  end.

Fixpoint _abyss_totem_free
  (fuel : nat) (totem ptr : Z) (h : gmap Z object)
  : option (bool * gmap Z object * list warning) :=
  match fuel with
  | O => None
  | S fuel' =>
      t ← load_totem h totem;
      free_loop (_abyss_totem_free fuel') totem ptr
        (Z.to_nat (totem_head t + 1)) h
  end.

Definition abyss_totem_free
  (fuel : nat) (totem ptr : Z) (h : gmap Z object)
  : option (gmap Z object * list warning) :=
  '(error, h', w) ← _abyss_totem_free fuel totem ptr h;
  if (error : bool) then Some (h', w ++ [WARN_totem_invalid_free])
  else Some (h', w).

(** One [case] of the [switch] of [abyss_totem_reset]. *)
Definition reset_child
  (rec : Z -> gmap Z object -> option (gmap Z object))
  (s : slot) (h : gmap Z object)
  : option (gmap Z object) :=
  match slot_type s with
  | ABYSS_ARENA_T =>
      a ← load_arena h (slot_ptr s);
      Some (<[slot_ptr s := ObjArena (abyss_arena_reset a)]> h)
  | ABYSS_SURGE_T =>
      s0 ← load_surge h (slot_ptr s);
      Some (<[slot_ptr s := ObjSurge (abyss_surge_reset s0)]> h)
  | ABYSS_TOTEM_T => rec (slot_ptr s) h
  end.

Fixpoint reset_loop
  (rec : Z -> gmap Z object -> option (gmap Z object))
  (totem : Z) (n : nat) (h : gmap Z object)
  : option (gmap Z object) :=
  match n with
  | O => Some h
  | S i =>
      t ← load_totem h totem;
      s ← totem_allocators t !! Z.of_nat i;
      h' ← reset_child rec s h;
      reset_loop rec totem i h'
  end.

Fixpoint abyss_totem_reset
  (fuel : nat) (totem : Z) (h : gmap Z object)
  : option (gmap Z object) :=
  match fuel with
  | O => None
  | S fuel' =>
      t ← load_totem h totem;
      reset_loop (abyss_totem_reset fuel') totem
        (Z.to_nat (totem_head t + 1)) h
  end.

(** One [case] of the [switch] of [_abyss_totem_contains].  For a child of
    type [ABYSS_TOTEM_T] the source calls [_abyss_totem_contains(totem, ptr)],
    with the totem it is scanning and not the child: [rec] takes no
    pointer. *)
Definition contains_child
  (rec : gmap Z object -> option bool)
  (s : slot) (ptr : Z) (h : gmap Z object)
  : option bool :=
  match slot_type s with
  | ABYSS_ARENA_T =>
      a ← load_arena h (slot_ptr s);
      Some (_abyss_arena_contains (slot_ptr s) a ptr)
  | ABYSS_SURGE_T =>
      s0 ← load_surge h (slot_ptr s);
      Some (_abyss_surge_contains (slot_ptr s) s0 ptr)
  | ABYSS_TOTEM_T => rec h
  end.

Fixpoint contains_loop
  (rec : gmap Z object -> option bool)
  (totem ptr : Z) (n : nat) (h : gmap Z object)
  : option bool :=
  match n with
  | O => Some false
  | S i =>
      t ← load_totem h totem;
      s ← totem_allocators t !! Z.of_nat i;
      c ← contains_child rec s ptr h;
      if (c : bool) then Some true else contains_loop rec totem ptr i h
  end.

(** [fuel] bounds the number of nested calls. *)
Fixpoint _abyss_totem_contains
  (fuel : nat) (totem ptr : Z) (h : gmap Z object)
  : option bool :=
  match fuel with
  | O => None
  | S fuel' =>
      t ← load_totem h totem;
      contains_loop (_abyss_totem_contains fuel' totem ptr) totem ptr
        (Z.to_nat (totem_head t + 1)) h
  end.

End Allocators.

(** ** The size macro of the Totem *)

(** Bytes from the start of the Totem's buffer to the end of
    [allocators[i]]. *)
Definition slot_end (B : build) (i : Z) : Z :=
  sizeof_Totem B + sizeof_slot B * (i + 1).

(** [abyss_totem_push] of the children in turn: the pointers returned and
    the Totem afterwards. *)
Fixpoint push_all (t : Abyss_Totem) (cs : list slot) : list Z * Abyss_Totem :=
  match cs with
  | [] => ([], t)
  | c :: cs' =>
      let '(r, t1) := abyss_totem_push t (slot_ptr c) (slot_type c) in
      let '(rs, t2) := push_all t1 cs' in
      (r :: rs, t2)
  end.

(** A Totem set up on exactly [ABYSS_TOTEM_SIZE(n)] bytes reports capacity
    [n] although fewer than [n] slots fit behind the header, and takes [n]
    children, the last of which is stored in a slot that ends past the
    buffer. *)
Definition totem_size_overrun (B : build) (n : Z) : Prop :=
  forall buf : Z, exists t : Abyss_Totem,
    fst (abyss_totem_init B buf (ABYSS_TOTEM_SIZE B n)) = Some t
    /\ totem_capacity t = n
    /\ (ABYSS_TOTEM_SIZE B n - sizeof_Totem B) / sizeof_slot B < n
    /\ forall cs : list slot, Z.of_nat (length cs) = n ->
         fst (push_all t cs) = map slot_ptr cs
         /\ totem_head (snd (push_all t cs)) = n - 1
         /\ totem_allocators (snd (push_all t cs)) !! (n - 1) = last cs
         /\ ABYSS_TOTEM_SIZE B n < slot_end B (n - 1).

(** The layout the overrun rests on: a handle is as wide as a pointer, a
    slot is wider, and the sizes of a Totem of up to 65535 children fit
    [size_t]. *)
Definition slot_wider_than_pointer (B : build) : Prop :=
  sizeof_handle B = sizeof_voidp B
  /\ 0 < sizeof_voidp B < sizeof_slot B
  /\ 0 <= sizeof_Totem B
  /\ sizeof_Totem B + sizeof_voidp B * 65535 < 2 ^ 64.

(** ** Sequences of calls on one Arena *)

Inductive arena_op :=
| OpAlloc (n : Z)
| OpFree (hdl : Z)
| OpReset.

(** The Arena after one call; what the call returned or printed is
    dropped. *)
Definition arena_step (B : build) (arena : Z) (a : Abyss_Arena) (op : arena_op)
  : Abyss_Arena :=
  match op with
  | OpAlloc n => snd (abyss_arena_alloc B arena a n)
  | OpFree hdl => fst (abyss_arena_free B arena a hdl)
  | OpReset => abyss_arena_reset B a
  end.

Definition arena_run (B : build) (arena : Z) (a : Abyss_Arena) (ops : list arena_op)
  : Abyss_Arena :=
  fold_left (arena_step B arena) ops a.

(** [abyss_arena_alloc] of each size in turn: the handles returned and the
    Arena afterwards. *)
Fixpoint alloc_seq (B : build) (arena : Z) (a : Abyss_Arena) (ns : list Z)
  : list Z * Abyss_Arena :=
  match ns with
  | [] => ([], a)
  | n :: ns' =>
      let '(hdl, a1) := abyss_arena_alloc B arena a n in
      let '(hdls, a2) := alloc_seq B arena a1 ns' in
      (hdl :: hdls, a2)
  end.

(** Where consecutive blocks of the given sizes start when the first one
    starts at [p] and each start is rounded up to a multiple of 8. *)
Fixpoint block_starts (p : Z) (ns : list Z) : list Z :=
  match ns with
  | [] => []
  | n :: ns' => p :: block_starts (p + 8 * ((n + 7) / 8)) ns'
  end.

(** The one-line form of the header's example,
    [abyss_handle_get_ptr(arena, abyss_arena_alloc(arena, size))], after
    macro expansion.  In handle mode the macro tests [hdl == 0] and, when
    the test fails, adds [hdl] to the allocator's address: its argument
    [hdl], here the call, is evaluated once for the test and once more for
    the sum.  In pointer mode the macro is [(hdl)]. *)
Definition handle_get_ptr_of_alloc
  (B : build) (arena : Z) (a : Abyss_Arena) (size : Z) : Z * Abyss_Arena :=
  if ABYSS_HANDLE_MODE B then
    let '(hdl1, a1) := abyss_arena_alloc B arena a size in
    if hdl1 =? 0 then (0, a1)
    else
      let '(hdl2, a2) := abyss_arena_alloc B arena a1 size in
      (size_t (arena + hdl2), a2)
  else abyss_arena_alloc B arena a size.

(** The bytes the blocks of [block_starts] take up together. *)
Definition blocks_total (ns : list Z) : Z :=
  fold_right (fun n acc => 8 * ((n + 7) / 8) + acc) 0 ns.

(** A request size is a [size_t]. *)
Definition op_wf (op : arena_op) : Prop :=
  match op with
  | OpAlloc n => 0 <= n < 2 ^ 64
  | OpFree _ | OpReset => True
  end.

(** The invariant of an Arena whose cursor stays on multiples of 8. *)
Definition arena_inv (a : Abyss_Arena) : Prop :=
  0 <= arena_offset a <= arena_size a /\ arena_offset a mod 8 = 0.

(** ** Totems whose children are Arenas and Surges *)

(** What [abyss_arena_reset] and [abyss_surge_reset] make of an object. *)
Definition reset_obj (B : build) (o : object) : object :=
  match o with
  | ObjArena a => ObjArena (abyss_arena_reset B a)
  | ObjSurge s => ObjSurge (abyss_surge_reset B s)
  | ObjTotem t => ObjTotem t
  end.

(** The pointers in slots [0 .. n-1] of the Totem. *)
Definition child_ptrs (t : Abyss_Totem) (n : nat) : list Z :=
  omap (fun i : nat => slot_ptr <$> totem_allocators t !! Z.of_nat i) (seq 0 n).

(** Slot [i] holds a pointer, other than the Totem itself, to an Arena or
    a Surge of the store, tagged with its type. *)
Definition flat_slot (h : gmap Z object) (totem : Z) (t : Abyss_Totem) (i : nat)
  : Prop :=
  exists s : slot,
    totem_allocators t !! Z.of_nat i = Some s
    /\ slot_ptr s <> totem
    /\ ((slot_type s = ABYSS_ARENA_T /\ exists a, h !! slot_ptr s = Some (ObjArena a))
        \/ (slot_type s = ABYSS_SURGE_T /\ exists s0, h !! slot_ptr s = Some (ObjSurge s0))).

(** Slot [i] is as in [flat_slot] and the range test of its child rejects
    [ptr]. *)
Definition unclaimed_slot
  (B : build) (h : gmap Z object) (t : Abyss_Totem) (ptr : Z) (i : nat) : Prop :=
  exists s : slot,
    totem_allocators t !! Z.of_nat i = Some s
    /\ ((slot_type s = ABYSS_ARENA_T
         /\ exists a, h !! slot_ptr s = Some (ObjArena a)
                      /\ _abyss_arena_contains B (slot_ptr s) a ptr = false)
        \/ (slot_type s = ABYSS_SURGE_T
            /\ exists s0, h !! slot_ptr s = Some (ObjSurge s0)
                          /\ _abyss_surge_contains B (slot_ptr s) s0 ptr = false)).

(** ** Worked runs on the 64-bit build

    Each run below starts from [init] and follows the calls of the
    header one by one; addresses are those of the caller's buffers. *)

Module Runs.

(** Pointer mode and handle mode. *)
Definition P : build := lp64 false.
Definition H : build := lp64 true.

(** A 256-byte Arena right after [abyss_arena_init]. *)
Definition arena256 : Abyss_Arena := {| arena_offset := 0; arena_size := 240 |}.

(** A 256-byte Surge right after [abyss_surge_init]. *)
Definition surge256 : Abyss_Surge :=
  {| surge_size := 232; surge_offset := 0; surge_count := 0 |}.

(** A Totem on a 72-byte buffer right after [abyss_totem_init]. *)
Definition totem72 : Abyss_Totem :=
  {| totem_head := 65535; totem_capacity := 8; totem_allocators := ∅ |}.

(** An Arena on a 32-byte buffer after one 16-byte block: nothing left. *)
Definition full_arena : Abyss_Arena := {| arena_offset := 16; arena_size := 16 |}.

(** The Totem of the header's usage example at the moment it retries: the
    first Arena, at 2000, is full and a fresh 256-byte Arena at 3000 was
    pushed on top of it. *)
Definition retry_totem : Abyss_Totem :=
  snd (abyss_totem_push
         (snd (abyss_totem_push totem72 2000 ABYSS_ARENA_T)) 3000 ABYSS_ARENA_T).

Definition retry_store : gmap Z object :=
  <[5000 := ObjTotem retry_totem]>
    (<[3000 := ObjArena arena256]> (<[2000 := ObjArena full_arena]> ∅)).

(** A Totem over two Arenas that both have room. *)
Definition roomy_store : gmap Z object :=
  <[5000 := ObjTotem retry_totem]>
    (<[3000 := ObjArena arena256]> (<[2000 := ObjArena arena256]> ∅)).

(** A Totem over one Arena at 2000 that has handed out one 8-byte block. *)
Definition one_arena_store : gmap Z object :=
  <[5000 := ObjTotem (snd (abyss_totem_push totem72 2000 ABYSS_ARENA_T))]>
    (<[2000 := ObjArena {| arena_offset := 8; arena_size := 240 |}]> ∅).

End Runs.

(** * Properties *)

(** ** Machine integers *)

Lemma size_t_range z : 0 <= size_t z < 2 ^ 64.
Proof. unfold size_t. apply Z.mod_pos_bound. lia. Qed.

Lemma size_t_small z : 0 <= z < 2 ^ 64 -> size_t z = z.
Proof. intros. unfold size_t. apply Z.mod_small. assumption. Qed.

Lemma ushort_range z : 0 <= ushort z < 2 ^ 16.
Proof. unfold ushort. apply Z.mod_pos_bound. lia. Qed.

Lemma ushort_small z : 0 <= z < 2 ^ 16 -> ushort z = z.
Proof. intros. unfold ushort. apply Z.mod_small. assumption. Qed.

Lemma intptr_t_small z : - 2 ^ 63 <= z < 2 ^ 63 -> intptr_t z = z.
Proof.
  intros Hz. unfold intptr_t.
  destruct (Z_lt_dec z 0) as [Hneg|Hpos].
  - rewrite <- (Z.mod_add z 1 (2 ^ 64)) by lia.
    rewrite Z.mod_small by lia.
    destruct (_ <? _) eqn:E; [apply Z.ltb_lt in E; lia | lia].
  - rewrite Z.mod_small by lia.
    destruct (_ <? _) eqn:E; [reflexivity | apply Z.ltb_ge in E; lia].
Qed.


Lemma short_small z : 0 <= z < 2 ^ 15 -> short z = z.
Proof.
  intros Hz. unfold short. rewrite Z.mod_small by lia.
  destruct (_ <? _) eqn:E; [reflexivity | apply Z.ltb_ge in E; lia].
Qed.

(** With the default alignment the mask of [_ABYSS_ROUND_UP] clears the
    low three bits: the result is the next multiple of 8. *)
Lemma round_up_8 (n : Z) :
  0 <= n -> n + 7 < 2 ^ 64 -> _ABYSS_ROUND_UP n 8 = 8 * ((n + 7) / 8).
Proof.
  intros H0 Hn. unfold _ABYSS_ROUND_UP.
  rewrite (size_t_small (n + 8 - 1)) by lia.
  replace (size_t (- (8))) with (Z.ldiff (Z.ones 64) (Z.ones 3)) by reflexivity.
  rewrite Z.ldiff_land, Z.land_assoc, Z.land_ones by lia.
  rewrite Z.mod_small by lia.
  rewrite <- Z.ldiff_land, Z.ldiff_ones_r by lia.
  rewrite Z.shiftr_div_pow2, Z.shiftl_mul_pow2 by lia.
  replace (n + 8 - 1) with (n + 7) by lia.
  change (2 ^ 3) with 8. lia.
Qed.

(** ** Arithmetic of the space left *)

Lemma arena_free_mem_nonneg (a : Abyss_Arena) : 0 <= arena_free_mem a.
Proof. unfold arena_free_mem. apply size_t_range. Qed.

Lemma surge_free_mem_nonneg (s : Abyss_Surge) : 0 <= surge_free_mem s.
Proof. unfold surge_free_mem. apply size_t_range. Qed.

(** With the cursor inside the buffer the space left is the plain
    difference. *)
Lemma arena_free_mem_exact (a : Abyss_Arena) :
  0 <= arena_offset a <= arena_size a -> arena_size a < 2 ^ 64 ->
  arena_free_mem a = arena_size a - arena_offset a.
Proof. intros Hle Hlt. unfold arena_free_mem. apply size_t_small. lia. Qed.

Lemma arena_alloc_too_big (B : build) (arena : Z) (a : Abyss_Arena) (n : Z) :
  arena_free_mem a < n ->
  abyss_arena_alloc B arena a n = (abyss_handle_NULL, a).
Proof.
  intros Hn. pose proof (arena_free_mem_nonneg a) as H0.
  unfold abyss_arena_alloc.
  destruct (n =? 0) eqn:Ez; [apply Z.eqb_eq in Ez; lia|].
  unfold arena_free_mem in Hn.
  apply Z.ltb_lt in Hn. rewrite Hn. reflexivity.
Qed.

Lemma surge_alloc_too_big (B : build) (surge : Z) (s : Abyss_Surge) (n : Z) :
  surge_free_mem s < n ->
  abyss_surge_alloc B surge s n = (abyss_handle_NULL, s).
Proof.
  intros Hn. pose proof (surge_free_mem_nonneg s) as H0.
  unfold abyss_surge_alloc.
  destruct (n =? 0) eqn:Ez; [apply Z.eqb_eq in Ez; lia|].
  unfold surge_free_mem in Hn.
  apply Z.ltb_lt in Hn. rewrite Hn. reflexivity.
Qed.

Lemma totem_push_full (t : Abyss_Totem) (allocator : Z) (type : abyss_allocator_t) :
  0 <= totem_capacity t < 2 ^ 16 ->
  totem_head t + 1 = totem_capacity t ->
  abyss_totem_push t allocator type = (abyss_handle_NULL, t).
Proof.
  intros Hc Hh. unfold abyss_totem_push.
  rewrite Hh, (ushort_small _ Hc), Z.leb_refl. reflexivity.
Qed.

(** The refusals the code does make change nothing.  When the quantity
    the guard of [alloc] compares, [size - offset] in [size_t], is below
    the request, an Arena or Surge [alloc] returns the null handle and the
    allocator as it was, so the same call again gives the same answer; a
    [push] on a Totem with [head + 1 == capacity] returns null and the
    Totem, head and child array, as it was. *)
Theorem capacity_failure_atomic (B : build) :
  (forall (arena : Z) (a : Abyss_Arena) (n : Z),
      arena_free_mem a < n ->
      let r := abyss_arena_alloc B arena a n in
      r = (abyss_handle_NULL, a) /\ abyss_arena_alloc B arena (snd r) n = r)
  /\ (forall (surge : Z) (s : Abyss_Surge) (n : Z),
      surge_free_mem s < n ->
      let r := abyss_surge_alloc B surge s n in
      r = (abyss_handle_NULL, s) /\ abyss_surge_alloc B surge (snd r) n = r)
  /\ (forall (t : Abyss_Totem) (allocator : Z) (type : abyss_allocator_t),
      0 <= totem_capacity t < 2 ^ 16 ->
      totem_head t + 1 = totem_capacity t ->
      abyss_totem_push t allocator type = (abyss_handle_NULL, t)).
Proof.
  split; [|split].
  - intros arena a n Hn r. subst r.
    rewrite (arena_alloc_too_big B arena a n Hn). simpl.
    split; [reflexivity | apply arena_alloc_too_big; exact Hn].
  - intros surge s n Hn r. subst r.
    rewrite (surge_alloc_too_big B surge s n Hn). simpl.
    split; [reflexivity | apply surge_alloc_too_big; exact Hn].
  - intros t allocator type. apply totem_push_full.
Qed.

(** A full Arena asked for 8 bytes, a Surge with 4 bytes left asked for 5,
    and a Totem of capacity 2 holding two children. *)
Lemma capacity_failure_atomic_witness :
  let a := {| arena_offset := 240; arena_size := 240 |} in
  let s := {| surge_size := 12; surge_offset := 8; surge_count := 1 |} in
  let t := {| totem_head := 1; totem_capacity := 2;
              totem_allocators :=
                <[1 := {| slot_ptr := 3000; slot_type := ABYSS_SURGE_T |}]>
                  (<[0 := {| slot_ptr := 2000; slot_type := ABYSS_ARENA_T |}]> ∅) |} in
  abyss_arena_alloc (lp64 false) 2000 a 8 = (abyss_handle_NULL, a)
  /\ abyss_surge_alloc (lp64 false) 3000 s 5 = (abyss_handle_NULL, s)
  /\ abyss_totem_push t 4000 ABYSS_ARENA_T = (abyss_handle_NULL, t).
Proof.
  intros a s t.
  destruct (capacity_failure_atomic (lp64 false)) as [Ha [Hs Ht]].
  split; [|split].
  - apply (Ha 2000 a 8). vm_compute. reflexivity.
  - apply (Hs 3000 s 5). vm_compute. reflexivity.
  - apply (Ht t 4000 ABYSS_ARENA_T); [vm_compute; split; [discriminate | reflexivity] | reflexivity].
Defined.

(** With the cursor inside the buffer, a request above the plain
    difference [size - offset] is refused and changes nothing. *)
Lemma arena_alloc_refused_within_size
  (B : build) (arena : Z) (a : Abyss_Arena) (n : Z) :
  0 <= arena_offset a <= arena_size a -> arena_size a < 2 ^ 64 ->
  arena_size a - arena_offset a < n ->
  abyss_arena_alloc B arena a n = (abyss_handle_NULL, a).
Proof.
  intros Ho Hs Hn. apply arena_alloc_too_big.
  rewrite arena_free_mem_exact by assumption. exact Hn.
Qed.

(** C6: a request above the space left is not always refused.  On a
    20-byte buffer [init] and [alloc 1] leave an Arena with size 4 and
    offset 8: nothing is left, and [4 - 8 < 100].  [alloc 100] on it is
    granted at 1024 and moves the offset to 112, and the same call again
    is granted at 1128 and moves it to 216.  A Surge on 28 bytes does the
    same: after [alloc 1] (size 4, offset 8, count 1), [alloc 100] is
    granted at 1032 and leaves offset 112 and count 2. *)
Theorem alloc_granted_with_nothing_left :
  let a1 := {| arena_offset := 8; arena_size := 4 |} in
  let s1 := {| surge_size := 4; surge_offset := 8; surge_count := 1 |} in
  abyss_arena_init Runs.P 1000 20
    = (Some {| arena_offset := 0; arena_size := 4 |}, [])
  /\ abyss_arena_alloc Runs.P 1000 {| arena_offset := 0; arena_size := 4 |} 1
     = (1016, a1)
  /\ arena_size a1 - arena_offset a1 < 100
  /\ abyss_arena_alloc Runs.P 1000 a1 100
     = (1024, {| arena_offset := 112; arena_size := 4 |})
  /\ abyss_arena_alloc Runs.P 1000 {| arena_offset := 112; arena_size := 4 |} 100
     = (1128, {| arena_offset := 216; arena_size := 4 |})
  /\ abyss_surge_init Runs.P 1000 28
     = (Some {| surge_size := 4; surge_offset := 0; surge_count := 0 |}, [])
  /\ abyss_surge_alloc Runs.P 1000
       {| surge_size := 4; surge_offset := 0; surge_count := 0 |} 1
     = (1024, s1)
  /\ surge_size s1 - surge_offset s1 < 100
  /\ abyss_surge_alloc Runs.P 1000 s1 100
     = (1032, {| surge_size := 4; surge_offset := 112; surge_count := 2 |}).
Proof.
  intros a1 s1. unfold a1, s1.
  repeat match goal with |- _ /\ _ => split end;
    first [ reflexivity | cbn; lia ].
Qed.

(** ** Handles in offset mode *)

(** C9: in handle mode a pointer into the managed region of the allocator
    at [base] (header of [hdr] bytes, then [size] usable bytes) converts to
    a handle and back to itself; the conversion takes the base and the
    handle and nothing else: no size, alignment or allocator state of the
    build enters its result. *)
Theorem handle_roundtrip (B : build) (base hdr size ptr : Z) :
  ABYSS_HANDLE_MODE B = true ->
  0 <= base -> 0 < hdr -> base + hdr + size <= 2 ^ 64 ->
  base + hdr <= ptr < base + hdr + size ->
  abyss_handle_get_ptr B base (abyss_handle_get_hdl B base ptr) = ptr
  /\ forall (B' : build) (hdl : Z),
       ABYSS_HANDLE_MODE B' = true ->
       abyss_handle_get_ptr B' base hdl = abyss_handle_get_ptr B base hdl.
Proof.
  intros Hm Hb Hh Hend Hp. split.
  - unfold abyss_handle_get_ptr, abyss_handle_get_hdl. rewrite Hm.
    destruct (ptr =? 0) eqn:Ep; [apply Z.eqb_eq in Ep; lia|].
    rewrite (size_t_small (ptr - base)) by lia.
    destruct (ptr - base =? 0) eqn:Ed; [apply Z.eqb_eq in Ed; lia|].
    rewrite size_t_small by lia. lia.
  - intros B' hdl Hm'. unfold abyss_handle_get_ptr. rewrite Hm, Hm'.
    reflexivity.
Qed.

(** The first block of a 256-byte Arena placed at address 4096. *)
Lemma handle_roundtrip_witness :
  abyss_handle_get_ptr (lp64 true) 4096
    (abyss_handle_get_hdl (lp64 true) 4096 4112) = 4112.
Proof.
  apply (proj1 (handle_roundtrip (lp64 true) 4096 16 240 4112
                  eq_refl ltac:(lia) ltac:(lia) ltac:(lia) ltac:(lia))).
Defined.

(** ** Worked runs: the starting states come from [init] *)

Lemma arena256_init :
  abyss_arena_init Runs.P 1000 256 = (Some Runs.arena256, []).
Proof. reflexivity. Qed.

Lemma surge256_init :
  abyss_surge_init Runs.P 1000 256 = (Some Runs.surge256, []).
Proof. reflexivity. Qed.

Lemma totem72_init :
  abyss_totem_init Runs.P 5000 72 = (Some Runs.totem72, []).
Proof. reflexivity. Qed.


Lemma full_arena_reached :
  abyss_arena_init Runs.P 2000 32 = (Some {| arena_offset := 0; arena_size := 16 |}, [])
  /\ abyss_arena_alloc Runs.P 2000 {| arena_offset := 0; arena_size := 16 |} 16
     = (2016, Runs.full_arena).
Proof. split; reflexivity. Qed.

(** ** The scan of [abyss_totem_alloc] *)

Lemma load_totem_insert_ne (h : gmap Z object) (p q : Z) (o : object) :
  p <> q -> load_totem (<[p := o]> h) q = load_totem h q.
Proof.
  intros Hne. unfold load_totem. rewrite lookup_insert_ne by exact Hne.
  reflexivity.
Qed.

Lemma load_arena_insert_ne (h : gmap Z object) (p q : Z) (o : object) :
  p <> q -> load_arena (<[p := o]> h) q = load_arena h q.
Proof.
  intros Hne. unfold load_arena. rewrite lookup_insert_ne by exact Hne.
  reflexivity.
Qed.

Lemma alloc_child_arena
  (B : build) (rec : Z -> Z -> gmap Z object -> option (Z * gmap Z object))
  (p : Z) (a : Abyss_Arena) (n : Z) (h : gmap Z object) :
  load_arena h p = Some a ->
  alloc_child B rec {| slot_ptr := p; slot_type := ABYSS_ARENA_T |} n h
  = Some (fst (abyss_arena_alloc B p a n),
          <[p := ObjArena (snd (abyss_arena_alloc B p a n))]> h).
Proof.
  intros Hl. unfold alloc_child. cbn [slot_type slot_ptr]. rewrite Hl.
  cbn [mbind option_bind]. destruct (abyss_arena_alloc B p a n). reflexivity.
Qed.

(** One round of the loop: the only exit is a null handle. *)
Lemma alloc_loop_step
  (B : build) (rec : Z -> Z -> gmap Z object -> option (Z * gmap Z object))
  (totem n : Z) (i : nat) (hdl : Z) (h : gmap Z object)
  (t : Abyss_Totem) (s : slot) (hdl' : Z) (h' : gmap Z object) :
  load_totem h totem = Some t ->
  totem_allocators t !! Z.of_nat i = Some s ->
  alloc_child B rec s n h = Some (hdl', h') ->
  alloc_loop B rec totem n (S i) hdl h
  = if abyss_handle_is_NULL hdl' then Some (hdl', h')
    else alloc_loop B rec totem n i hdl' h'.
Proof.
  intros Ht Hs Hc. cbn [alloc_loop]. rewrite Ht. cbn [mbind option_bind].
  rewrite Hs. cbn [mbind option_bind]. rewrite Hc. reflexivity.
Qed.

(** A Totem over two Arenas, [b] pushed last: whenever [b] grants the
    request, [a] is asked as well, both are charged, and the caller gets
    whatever [a] answered, be it null. *)
Lemma totem_alloc_two_arenas
  (B : build) (fuel : nat) (h : gmap Z object) (totem : Z) (t : Abyss_Totem)
  (pa pb : Z) (a b : Abyss_Arena) (n : Z) :
  h !! totem = Some (ObjTotem t) -> totem_head t = 1 ->
  totem_allocators t !! 0 = Some {| slot_ptr := pa; slot_type := ABYSS_ARENA_T |} ->
  totem_allocators t !! 1 = Some {| slot_ptr := pb; slot_type := ABYSS_ARENA_T |} ->
  h !! pa = Some (ObjArena a) -> h !! pb = Some (ObjArena b) ->
  pa <> pb -> pb <> totem ->
  fst (abyss_arena_alloc B pb b n) <> abyss_handle_NULL ->
  abyss_totem_alloc B (S fuel) totem n h
  = Some (fst (abyss_arena_alloc B pa a n),
          <[pa := ObjArena (snd (abyss_arena_alloc B pa a n))]>
            (<[pb := ObjArena (snd (abyss_arena_alloc B pb b n))]> h)).
Proof.
  intros Ht Hhead H0 H1 Ha Hb Hab Hbt Hgrant.
  assert (Hlt : load_totem h totem = Some t)
    by (unfold load_totem; rewrite Ht; reflexivity).
  assert (Hla : load_arena h pa = Some a)
    by (unfold load_arena; rewrite Ha; reflexivity).
  assert (Hlb : load_arena h pb = Some b)
    by (unfold load_arena; rewrite Hb; reflexivity).
  cbn [abyss_totem_alloc]. rewrite Hlt. cbn [mbind option_bind].
  rewrite Hhead. change (Z.to_nat (1 + 1)) with 2%nat.
  rewrite (alloc_loop_step B _ totem n 1 _ h t _ _ _ Hlt H1
             (alloc_child_arena B _ pb b n h Hlb)).
  destruct (abyss_handle_is_NULL _) eqn:Ez.
  { apply Z.eqb_eq in Ez. contradiction. }
  set (h1 := <[pb := ObjArena _]> h).
  assert (Hlt1 : load_totem h1 totem = Some t)
    by (unfold h1; rewrite load_totem_insert_ne; assumption).
  assert (Hla1 : load_arena h1 pa = Some a)
    by (unfold h1; rewrite load_arena_insert_ne; [assumption | congruence]).
  rewrite (alloc_loop_step B _ totem n 0 _ h1 t _ _ _ Hlt1 H0
             (alloc_child_arena B _ pa a n h1 Hla1)).
  cbn [alloc_loop].
  destruct (abyss_handle_is_NULL (fst (abyss_arena_alloc B pa a n))); reflexivity.
Qed.

(** C1: [abyss_totem_alloc] does not stop at the first child that returns
    a block.  In the store of the header's own example (a full Arena with a
    fresh one pushed on top) the fresh head child returns block 3016, the
    loop goes on to the full Arena below it, and the call returns null
    while the fresh Arena has lost 8 bytes.  With room in both children
    both are charged and the block of child 0, the oldest, is returned. *)
Theorem totem_alloc_scans_past_first_block (fuel : nat) :
  fst (abyss_arena_alloc Runs.P 3000 Runs.arena256 8) = 3016
  /\ abyss_totem_alloc Runs.P (S fuel) 5000 8 Runs.retry_store
     = Some (abyss_handle_NULL,
             <[3000 := ObjArena {| arena_offset := 8; arena_size := 240 |}]>
               Runs.retry_store)
  /\ abyss_totem_alloc Runs.P (S fuel) 5000 8 Runs.roomy_store
     = Some (2016,
             <[2000 := ObjArena {| arena_offset := 8; arena_size := 240 |}]>
               (<[3000 := ObjArena {| arena_offset := 8; arena_size := 240 |}]>
                  Runs.roomy_store)).
Proof. repeat split; vm_compute; reflexivity. Qed.

(** ** Surge: the offset after a drain *)

(** On the 64-bit build, whatever the buffer (address, size) and the
    request: [init] starts the Surge at offset 0, and the [free] of its
    first and only block leaves count 0 and offset 8. *)
Lemma surge_first_block_cycle (surge size n : Z) :
  0 <= surge -> surge + 24 < 2 ^ 63 ->
  24 <= size < 2 ^ 64 -> 0 < n <= size - 24 ->
  let B := lp64 false in
  exists s0 : Abyss_Surge,
    abyss_surge_init B surge size = (Some s0, [])
    /\ surge_offset s0 = 0
    /\ fst (abyss_surge_alloc B surge s0 n) = surge + 24
    /\ abyss_surge_free B surge (snd (abyss_surge_alloc B surge s0 n)) (surge + 24)
       = ({| surge_size := size - 24; surge_offset := 8; surge_count := 0 |}, []).
Proof.
  intros Hp Hp' Hsz Hn B.
  exists {| surge_size := size - 24; surge_offset := 0; surge_count := 0 |}.
  assert (Hinit : abyss_surge_init B surge size
                  = (Some {| surge_size := size - 24; surge_offset := 0;
                             surge_count := 0 |}, [])).
  { unfold abyss_surge_init. cbn [B lp64 sizeof_Surge sizeof_Arena ABYSS_DATA_ALIGN].
    destruct (size <? 24) eqn:E; [apply Z.ltb_lt in E; lia|].
    rewrite (size_t_small (size - 24)) by lia. reflexivity. }
  assert (Halloc : abyss_surge_alloc B surge
                     {| surge_size := size - 24; surge_offset := 0; surge_count := 0 |} n
                   = (surge + 24,
                      {| surge_size := size - 24;
                         surge_offset := 8 * ((n + 7) / 8);
                         surge_count := 1 |})).
  { unfold abyss_surge_alloc, abyss_handle_switch, surge_buf.
    cbn [B lp64 sizeof_Surge ABYSS_DATA_ALIGN ABYSS_HANDLE_MODE
         surge_size surge_offset surge_count].
    destruct (n =? 0) eqn:Ez; [apply Z.eqb_eq in Ez; lia|].
    rewrite Z.sub_0_r, (size_t_small (size - 24)) by lia.
    destruct (size - 24 <? n) eqn:E; [apply Z.ltb_lt in E; lia|].
    rewrite (size_t_small (surge + 24)), Z.add_0_r by lia.
    rewrite (size_t_small (surge + 24)) by lia.
    rewrite (size_t_small (0 + n)) by lia.
    rewrite round_up_8 by lia. reflexivity. }
  split; [exact Hinit|]. split; [reflexivity|].
  rewrite Halloc. cbn [fst snd]. split; [reflexivity|].
  unfold abyss_surge_free, abyss_handle_get_ptr, _abyss_surge_contains, surge_buf.
  cbn [B lp64 sizeof_Surge sizeof_Arena ABYSS_DATA_ALIGN ABYSS_HANDLE_MODE
       surge_size surge_offset surge_count].
  unfold abyss_handle_is_NULL.
  destruct (surge + 24 =? 0) eqn:Ez; [apply Z.eqb_eq in Ez; lia|].
  rewrite (size_t_small (surge + 24)), Z.sub_diag by lia.
  assert (H8 : 0 < 8 * ((n + 7) / 8)).
  { assert (1 <= (n + 7) / 8) by (apply Z.div_le_lower_bound; lia). lia. }
  replace (intptr_t 0) with 0 by reflexivity.
  replace (size_t 0) with 0 by reflexivity.
  destruct (0 <? 8 * ((n + 7) / 8)) eqn:E; [|apply Z.ltb_ge in E; lia].
  reflexivity.
Qed.

(** C2: a Surge drained by [free] does not come back to the offset [init]
    gave it.  [init] leaves offset 0; one [alloc 8] and the [free] of its
    block leave count 0 and offset 8.  With two blocks, the [free] of the
    second one is refused as out of range, so after both frees, in either
    order, the count is 1. *)
Theorem surge_drain_misses_init_offset :
  abyss_surge_init Runs.P 1000 256 = (Some Runs.surge256, [])
  /\ abyss_surge_alloc Runs.P 1000 Runs.surge256 8
     = (1024, {| surge_size := 232; surge_offset := 8; surge_count := 1 |})
  /\ abyss_surge_free Runs.P 1000
       {| surge_size := 232; surge_offset := 8; surge_count := 1 |} 1024
     = ({| surge_size := 232; surge_offset := 8; surge_count := 0 |}, [])
  /\ abyss_surge_alloc Runs.P 1000
       {| surge_size := 232; surge_offset := 8; surge_count := 1 |} 8
     = (1032, {| surge_size := 232; surge_offset := 16; surge_count := 2 |})
  /\ abyss_surge_free Runs.P 1000
       {| surge_size := 232; surge_offset := 16; surge_count := 2 |} 1032
     = ({| surge_size := 232; surge_offset := 16; surge_count := 2 |},
        [WARN_invalid_free])
  /\ abyss_surge_free Runs.P 1000
       {| surge_size := 232; surge_offset := 16; surge_count := 2 |} 1024
     = ({| surge_size := 232; surge_offset := 16; surge_count := 1 |}, []).
Proof. repeat split; vm_compute; reflexivity. Qed.

(** ** Arena: the cursor and the end of the buffer *)

(** With the default alignment, a request that fits the space left and
    whose end rounds up beyond [size] is granted and leaves the offset
    beyond [size]. *)
Lemma arena_alloc_overshoot (B : build) (arena : Z) (a : Abyss_Arena) (n : Z) :
  ABYSS_DATA_ALIGN B = 8 ->
  0 <= arena_offset a -> 0 < n <= arena_size a - arena_offset a ->
  arena_size a + 7 < 2 ^ 64 ->
  arena_size a < 8 * ((arena_offset a + n + 7) / 8) ->
  arena_size (snd (abyss_arena_alloc B arena a n))
  < arena_offset (snd (abyss_arena_alloc B arena a n)).
Proof.
  intros Hal Ho Hn Hs Hover. unfold abyss_arena_alloc.
  destruct (n =? 0) eqn:Ez; [apply Z.eqb_eq in Ez; lia|].
  rewrite (size_t_small (arena_size a - arena_offset a)) by lia.
  destruct (_ <? n) eqn:E; [apply Z.ltb_lt in E; lia|].
  cbn [snd arena_size arena_offset]. rewrite Hal.
  rewrite (size_t_small (arena_offset a + n)) by lia.
  rewrite round_up_8 by lia. exact Hover.
Qed.

(** C3: an Arena [alloc] can move the offset past [size].  On a 20-byte
    buffer [size] is 4; [alloc 1] fits, and rounds the offset up to 8.
    From there the space left wraps around: [alloc 100] is granted at
    address 1024, past the end of the buffer at 1020, and an [alloc] of
    [2^64 - 8] bytes brings the offset from 8 back to 0. *)
Theorem arena_alloc_offset_passes_size :
  abyss_arena_init Runs.P 1000 20
    = (Some {| arena_offset := 0; arena_size := 4 |}, [])
  /\ abyss_arena_alloc Runs.P 1000 {| arena_offset := 0; arena_size := 4 |} 1
     = (1016, {| arena_offset := 8; arena_size := 4 |})
  /\ abyss_arena_alloc Runs.P 1000 {| arena_offset := 8; arena_size := 4 |} 100
     = (1024, {| arena_offset := 112; arena_size := 4 |})
  /\ abyss_arena_alloc Runs.P 1000 {| arena_offset := 8; arena_size := 4 |}
       (2 ^ 64 - 8)
     = (1024, {| arena_offset := 0; arena_size := 4 |}).
Proof. repeat split; vm_compute; reflexivity. Qed.

(** The addresses [_abyss_arena_contains] accepts, for user-space
    addresses (below [2^63]): those of [(buf - offset, buf]], the mirror
    image of the allocated range [[buf, buf + offset)]. *)
Lemma arena_contains_mirror (B : build) (arena : Z) (a : Abyss_Arena) (ptr : Z) :
  0 <= ptr < 2 ^ 63 -> arena_buf B arena < 2 ^ 63 ->
  _abyss_arena_contains B arena a ptr = true
  <-> arena_buf B arena - arena_offset a < ptr <= arena_buf B arena.
Proof.
  intros Hp Hb. unfold _abyss_arena_contains.
  assert (H0 : 0 <= arena_buf B arena) by (unfold arena_buf; apply size_t_range).
  rewrite intptr_t_small by lia.
  rewrite andb_true_iff, Z.leb_le, Z.ltb_lt.
  split.
  - intros [Hd Ho]. rewrite size_t_small in Ho by lia. lia.
  - intros [Hlo Hhi]. split; [lia|]. rewrite size_t_small by lia. lia.
Qed.

(** C4: the range test of the Arena [free] is mirrored.  The Arena at 1000
    has buf at 1016 and, after two 8-byte blocks, offset 16.  The second
    block, 1024, lies in [[1016, 1032)] and its [free] is reported as
    invalid; address 1008, inside the header and outside that range, is
    accepted in silence.  The Arena is the same after each call. *)
Theorem arena_free_range_mirrored :
  let a := {| arena_offset := 16; arena_size := 240 |} in
  abyss_arena_alloc Runs.P 1000 {| arena_offset := 8; arena_size := 240 |} 8
    = (1024, a)
  /\ arena_buf Runs.P 1000 = 1016
  /\ abyss_arena_free Runs.P 1000 a 1024 = (a, [WARN_invalid_free])
  /\ abyss_arena_free Runs.P 1000 a 1008 = (a, []).
Proof. repeat split; vm_compute; reflexivity. Qed.

(** What does hold of the Arena [free]: it never writes to the Arena. *)
Lemma arena_free_keeps_arena (B : build) (arena : Z) (a : Abyss_Arena) (hdl : Z) :
  fst (abyss_arena_free B arena a hdl) = a.
Proof.
  unfold abyss_arena_free.
  destruct (abyss_handle_is_NULL hdl); [reflexivity|].
  destruct (negb _); reflexivity.
Qed.

(** In pointer mode the [free] the Totem forwards to an Arena that took
    the pointer is silent. *)
Lemma arena_free_contained (B : build) (p : Z) (a : Abyss_Arena) (ptr : Z) :
  ABYSS_HANDLE_MODE B = false ->
  _abyss_arena_contains B p a ptr = true ->
  abyss_arena_free B p a (abyss_handle_get_hdl B p ptr) = (a, []).
Proof.
  intros Hm Hc.
  unfold abyss_arena_free, abyss_handle_get_hdl, abyss_handle_get_ptr.
  rewrite Hm. destruct (abyss_handle_is_NULL ptr); [reflexivity|].
  rewrite Hc. reflexivity.
Qed.

(** Whenever the head child, an Arena, takes the pointer, the Totem
    prints its invalid-free diagnostic. *)
Lemma totem_free_claimed_is_reported
  (B : build) (fuel : nat) (h : gmap Z object) (totem : Z) (t : Abyss_Totem)
  (p : Z) (a : Abyss_Arena) (ptr : Z) :
  ABYSS_HANDLE_MODE B = false ->
  h !! totem = Some (ObjTotem t) -> 0 <= totem_head t ->
  totem_allocators t !! totem_head t
    = Some {| slot_ptr := p; slot_type := ABYSS_ARENA_T |} ->
  h !! p = Some (ObjArena a) ->
  _abyss_arena_contains B p a ptr = true ->
  abyss_totem_free B (S fuel) totem ptr h = Some (h, [WARN_totem_invalid_free]).
Proof.
  intros Hm Ht Hh Hs Ha Hc.
  unfold abyss_totem_free. cbn [_abyss_totem_free].
  unfold load_totem at 1. rewrite Ht. cbn [mbind option_bind].
  replace (Z.to_nat (totem_head t + 1)) with (S (Z.to_nat (totem_head t))) by lia.
  cbn [free_loop]. unfold load_totem. rewrite Ht. cbn [mbind option_bind].
  rewrite Z2Nat.id by lia. rewrite Hs. cbn [mbind option_bind].
  unfold free_child. cbn [slot_type slot_ptr].
  unfold load_arena. rewrite Ha. cbn [mbind option_bind].
  rewrite Hc, (arena_free_contained B p a ptr Hm Hc).
  cbn [mbind option_bind]. rewrite (insert_id h p (ObjArena a) Ha).
  reflexivity.
Qed.

(** C5: the Totem [free] reports the pointers its children take.  Over one
    Arena at 2000 (buf at 2016, offset 8): block 2016 is taken by the
    child, its [free] is silent, and the Totem then prints its invalid-free
    diagnostic; address 2020, inside [[2016, 2024)], is taken by no child
    and so is 9999, and for both the Totem prints nothing. *)
Theorem totem_free_reports_claimed_pointer (fuel : nat) :
  abyss_arena_alloc Runs.P 2000 Runs.arena256 8
    = (2016, {| arena_offset := 8; arena_size := 240 |})
  /\ abyss_totem_free Runs.P (S fuel) 5000 2016 Runs.one_arena_store
     = Some (Runs.one_arena_store, [WARN_totem_invalid_free])
  /\ abyss_totem_free Runs.P (S fuel) 5000 2020 Runs.one_arena_store
     = Some (Runs.one_arena_store, [])
  /\ abyss_totem_free Runs.P (S fuel) 5000 9999 Runs.one_arena_store
     = Some (Runs.one_arena_store, []).
Proof. repeat split; vm_compute; reflexivity. Qed.

(** What does hold of [alloc 0]: the allocator is left as it was. *)
Lemma arena_alloc_zero_keeps_arena (B : build) (arena : Z) (a : Abyss_Arena) :
  snd (abyss_arena_alloc B arena a 0) = a.
Proof. reflexivity. Qed.

Lemma surge_alloc_zero_keeps_surge (B : build) (surge : Z) (s : Abyss_Surge) :
  snd (abyss_surge_alloc B surge s 0) = s.
Proof. reflexivity. Qed.

(** In pointer mode the block of a granted [alloc] lies one header above
    the address [alloc 0] returns. *)
Lemma arena_alloc_zero_below_block (B : build) (arena : Z) (a : Abyss_Arena) (n : Z) :
  ABYSS_HANDLE_MODE B = false -> 0 < n <= arena_free_mem a ->
  fst (abyss_arena_alloc B arena a n)
  = size_t (fst (abyss_arena_alloc B arena a 0) + sizeof_Arena B).
Proof.
  intros Hm [Hn Hfree]. unfold abyss_arena_alloc, abyss_handle_switch.
  rewrite Hm. simpl.
  destruct (n =? 0) eqn:Ez; [apply Z.eqb_eq in Ez; lia|].
  unfold arena_free_mem in Hfree.
  destruct (_ <? n) eqn:E; [apply Z.ltb_lt in E; lia|].
  simpl. unfold arena_buf, size_t.
  rewrite !Zplus_mod_idemp_l. f_equal. lia.
Qed.

(** C7: [alloc 0] does not return what the next [alloc] returns.  On a
    fresh 256-byte Arena at 1000, [alloc 0] gives 1000, the address of the
    header, and [alloc 8] gives 1016; in handle mode they give 0, the null
    handle, and 16.  A fresh Surge gives 1000 and 1024. *)
Theorem alloc_zero_is_not_next_block :
  fst (abyss_arena_alloc Runs.P 1000 Runs.arena256 0) = 1000
  /\ fst (abyss_arena_alloc Runs.P 1000 Runs.arena256 8) = 1016
  /\ fst (abyss_arena_alloc Runs.H 1000 Runs.arena256 0) = abyss_handle_NULL
  /\ fst (abyss_arena_alloc Runs.H 1000 Runs.arena256 8) = 16
  /\ fst (abyss_surge_alloc Runs.P 1000 Runs.surge256 0) = 1000
  /\ fst (abyss_surge_alloc Runs.P 1000 Runs.surge256 8) = 1024.
Proof. repeat split; vm_compute; reflexivity. Qed.

(** What does hold of [pop]: index [-1] is index [head]. *)
Lemma totem_pop_last (t : Abyss_Totem) :
  0 <= totem_head t ->
  abyss_totem_pop t (-1) = abyss_totem_pop t (totem_head t).
Proof.
  intros Hh. unfold abyss_totem_pop.
  replace (-1 <? 0) with true by reflexivity.
  destruct (totem_head t <? 0) eqn:E; [apply Z.ltb_lt in E; lia|].
  replace (totem_head t + -1 + 1) with (totem_head t) by lia.
  reflexivity.
Qed.

(** Any index above [head] and up to [capacity] whose slot was ever
    written passes the check of [pop]: the stale slot is returned and
    [head] goes down by one. *)
Lemma totem_pop_above_head (t : Abyss_Totem) (indx : Z) (s : slot) :
  0 <= totem_head t < 2 ^ 15 ->
  totem_head t < indx <= totem_capacity t ->
  totem_allocators t !! indx = Some s ->
  abyss_totem_pop t indx
  = Some (slot_ptr s, Some (allocator_t_value (slot_type s)),
          {| totem_head := ushort (totem_head t - 1);
             totem_capacity := totem_capacity t;
             totem_allocators := totem_allocators t |}).
Proof.
  intros Hh Hi Hs. unfold abyss_totem_pop.
  destruct (indx <? 0) eqn:E0; [apply Z.ltb_lt in E0; lia|].
  destruct (totem_capacity t <? indx) eqn:E1; [apply Z.ltb_lt in E1; lia|].
  rewrite short_small by lia.
  destruct (totem_head t <? 0) eqn:E2; [apply Z.ltb_lt in E2; lia|].
  cbn [orb]. rewrite Hs. cbn [mbind option_bind].
  replace (Z.to_nat (totem_head t - indx)) with 0%nat by lia.
  reflexivity.
Qed.

(** C8: [pop] takes an index above [head].  After [push A; push B;
    pop(-1)] the Totem holds child A alone, at index 0, and slot 1 still
    has B's bytes.  [pop 1] is not refused: it returns B once more and
    decrements [head] from 0 to 65535, the empty mark, so A is dropped. *)
Theorem totem_pop_accepts_index_above_head :
  let t2 := Runs.retry_totem in
  let slotA := {| slot_ptr := 2000; slot_type := ABYSS_ARENA_T |} in
  let slotB := {| slot_ptr := 3000; slot_type := ABYSS_ARENA_T |} in
  let t1 := {| totem_head := 0; totem_capacity := 8;
               totem_allocators := <[1 := slotB]> (<[0 := slotA]> ∅) |} in
  abyss_totem_pop t2 (-1) = Some (3000, Some 2, t1)
  /\ abyss_totem_pop t2 (-1) = abyss_totem_pop t2 (totem_head t2)
  /\ abyss_totem_pop t1 1
     = Some (3000, Some 2,
             {| totem_head := 65535; totem_capacity := 8;
                totem_allocators := <[1 := slotB]> (<[0 := slotA]> ∅) |}).
Proof. repeat split; vm_compute; reflexivity. Qed.

(** ** The size macro of the Totem: proofs *)

Lemma ushort_succ_pred (k : Z) : ushort (ushort (k - 1) + 1) = ushort k.
Proof.
  unfold ushort. rewrite Zplus_mod_idemp_l. f_equal. lia.
Qed.

Lemma slot_eta (c : slot) :
  {| slot_ptr := slot_ptr c; slot_type := slot_type c |} = c.
Proof. destruct c. reflexivity. Qed.

(** Pushing onto a Totem of [k] children with room for all of [cs]. *)
Lemma push_all_room (cs : list slot) :
  forall (t : Abyss_Totem) (k : Z),
    0 <= k -> totem_head t = ushort (k - 1) ->
    k + Z.of_nat (length cs) <= totem_capacity t -> totem_capacity t < 2 ^ 16 ->
    fst (push_all t cs) = map slot_ptr cs
    /\ totem_head (snd (push_all t cs)) = ushort (k + Z.of_nat (length cs) - 1)
    /\ totem_capacity (snd (push_all t cs)) = totem_capacity t
    /\ (forall i : Z, i < k ->
          totem_allocators (snd (push_all t cs)) !! i = totem_allocators t !! i)
    /\ (forall j : nat,
          (j < length cs)%nat ->
          totem_allocators (snd (push_all t cs)) !! (k + Z.of_nat j) = cs !! j).
Proof.
  induction cs as [|c cs IH]; intros t k Hk Hh Hroom Hcap.
  - simpl. repeat split; try reflexivity.
    + rewrite Hh. f_equal. lia.
    + intros j Hj. simpl in Hj. lia.
  - simpl length in *. rewrite Nat2Z.inj_succ in *.
    assert (Hpush : abyss_totem_push t (slot_ptr c) (slot_type c)
                    = (slot_ptr c,
                       {| totem_head := k;
                          totem_capacity := totem_capacity t;
                          totem_allocators := <[k := c]> (totem_allocators t) |})).
    { unfold abyss_totem_push.
      rewrite Hh, ushort_succ_pred, ushort_small by lia.
      destruct (totem_capacity t <=? k) eqn:E; [apply Z.leb_le in E; lia|].
      rewrite slot_eta. reflexivity. }
    simpl push_all. rewrite Hpush.
    set (t1 := {| totem_head := k; totem_capacity := totem_capacity t;
                  totem_allocators := <[k := c]> (totem_allocators t) |}).
    destruct (IH t1 (k + 1)) as (Hr & Hhd & Hcp & Hlow & Hnew).
    { lia. }
    { simpl. replace (k + 1 - 1) with k by lia. symmetry. apply ushort_small. lia. }
    { simpl. lia. }
    { simpl. lia. }
    destruct (push_all t1 cs) as [rs t2] eqn:Ep. simpl in *.
    repeat split.
    + rewrite Hr. reflexivity.
    + rewrite Hhd. f_equal. lia.
    + exact Hcp.
    + intros i Hi. rewrite Hlow by lia. apply lookup_insert_ne. lia.
    + intros [|j] Hj.
      * simpl. rewrite Z.add_0_r, Hlow by lia. apply lookup_insert_eq.
      * simpl. rewrite <- (Hnew j) by lia. f_equal. lia.
Qed.

(** C10, as amended: for [1 <= n <= 65535], a Totem set up on exactly
    [ABYSS_TOTEM_SIZE(n)] bytes reports capacity [n] while fewer than [n]
    slots fit behind its header, so [push] accepts [n] children and stores
    the last one in a slot that ends past the caller's buffer. *)
Theorem totem_size_overrun_ushort (B : build) (n : Z) :
  slot_wider_than_pointer B -> 1 <= n <= 65535 -> totem_size_overrun B n.
Proof.
  intros (Hhp & Hps & HT & Hmax) Hn buf.
  assert (Hsz : ABYSS_TOTEM_SIZE B n = sizeof_Totem B + sizeof_voidp B * n).
  { unfold ABYSS_TOTEM_SIZE. apply size_t_small. nia. }
  exists {| totem_head := ushort (-1); totem_capacity := n;
            totem_allocators := ∅ |}.
  split; [|split; [|split]].
  - unfold abyss_totem_init. rewrite Hsz.
    destruct (_ <? _) eqn:E; [apply Z.ltb_lt in E; nia|].
    simpl. do 2 f_equal.
    replace (sizeof_Totem B + sizeof_voidp B * n - sizeof_Totem B)
      with (n * sizeof_voidp B) by lia.
    rewrite size_t_small by nia.
    rewrite Hhp, Z.div_mul by lia.
    rewrite ushort_small by lia. reflexivity.
  - reflexivity.
  - rewrite Hsz.
    replace (sizeof_Totem B + sizeof_voidp B * n - sizeof_Totem B)
      with (sizeof_voidp B * n) by lia.
    apply Z.div_lt_upper_bound; nia.
  - intros cs Hlen.
    set (t := {| totem_head := ushort (-1); totem_capacity := n;
                 totem_allocators := ∅ |}).
    destruct (push_all_room cs t 0) as (Hr & Hhd & _ & _ & Hnew);
      [lia | reflexivity | simpl; lia | simpl; lia |].
    split; [exact Hr|]. split; [|split].
    + rewrite Hhd, Hlen. apply ushort_small. lia.
    + rewrite last_lookup.
      rewrite <- (Hnew (pred (length cs))) by lia.
      f_equal. lia.
    + rewrite Hsz. unfold slot_end. nia.
Qed.

(** The 64-bit build with room asked for two children. *)
Lemma totem_size_overrun_ushort_witness :
  slot_wider_than_pointer (lp64 false) /\ 1 <= 2 <= 65535
  /\ totem_size_overrun (lp64 false) 2.
Proof.
  assert (Hs : slot_wider_than_pointer (lp64 false)).
  { unfold slot_wider_than_pointer. simpl. unfold sizeof_handle. simpl. lia. }
  split; [exact Hs|]. split; [lia|].
  apply (totem_size_overrun_ushort (lp64 false) 2 Hs). lia.
Defined.

(** C10 as stated fails at [n = 65536]: [capacity] is an [unsigned short],
    and the Totem set up on [ABYSS_TOTEM_SIZE(65536)] bytes reports
    capacity 0. *)
Lemma totem_size_overrun_fails_at_65536 :
  ~ totem_size_overrun (lp64 false) 65536.
Proof.
  intros Hc. destruct (Hc 5000) as (t & Hi & Hcap & _).
  vm_compute in Hi. injection Hi as <-. vm_compute in Hcap. discriminate.
Qed.

(** * Further properties of the header *)

(** ** Rounding *)

Lemma size_t_neg_pow2 (k : Z) :
  0 <= k < 64 -> size_t (- 2 ^ k) = 2 ^ 64 - 2 ^ k.
Proof.
  intros Hk. unfold size_t.
  assert (H1 : 0 < 2 ^ k) by (apply Z.pow_pos_nonneg; lia).
  assert (H2 : 2 ^ k < 2 ^ 64) by (apply Z.pow_lt_mono_r; lia).
  rewrite <- (Z.mod_add (- 2 ^ k) 1 (2 ^ 64)) by lia.
  rewrite Z.mod_small by lia. lia.
Qed.

Lemma land_align_mask (k x : Z) :
  0 <= k < 64 -> 0 <= x < 2 ^ 64 ->
  Z.land x (2 ^ 64 - 2 ^ k) = 2 ^ k * (x / 2 ^ k).
Proof.
  intros Hk Hx.
  assert (H1 : 0 < 2 ^ k) by (apply Z.pow_pos_nonneg; lia).
  assert (Hm : 2 ^ 64 - 2 ^ k = Z.ldiff (Z.ones 64) (Z.ones k)).
  { rewrite Z.ldiff_ones_r by lia.
    rewrite Z.shiftr_div_pow2, Z.shiftl_mul_pow2 by lia.
    rewrite Z.ones_equiv.
    assert (Hsplit : 2 ^ 64 = 2 ^ (64 - k) * 2 ^ k).
    { rewrite <- Z.pow_add_r by lia. f_equal. lia. }
    assert (Hq : Z.pred (2 ^ 64) / 2 ^ k = 2 ^ (64 - k) - 1).
    { symmetry. apply (Z.div_unique_pos _ _ _ (2 ^ k - 1)); lia. }
    rewrite Hq. lia. }
  rewrite Hm, Z.ldiff_land, Z.land_assoc, Z.land_ones by lia.
  rewrite Z.mod_small by lia.
  rewrite <- Z.ldiff_land, Z.ldiff_ones_r by lia.
  rewrite Z.shiftr_div_pow2, Z.shiftl_mul_pow2 by lia. lia.
Qed.

(** X1: for an alignment [2^k] and a size that does not overflow,
    [_ABYSS_ROUND_UP] gives the least multiple of the alignment that is at
    least [n]: it is a multiple, lies in [[n, n + 2^k)], and an aligned [n]
    is returned as it is. *)
Theorem round_up_least_multiple (k n : Z) :
  0 <= k < 64 -> 0 <= n -> n + 2 ^ k - 1 < 2 ^ 64 ->
  let r := _ABYSS_ROUND_UP n (2 ^ k) in
  n <= r < n + 2 ^ k /\ r mod 2 ^ k = 0 /\ (n mod 2 ^ k = 0 -> r = n).
Proof.
  intros Hk Hn Hmax r.
  assert (H1 : 0 < 2 ^ k) by (apply Z.pow_pos_nonneg; lia).
  assert (Hr : r = 2 ^ k * ((n + 2 ^ k - 1) / 2 ^ k)).
  { unfold r, _ABYSS_ROUND_UP.
    rewrite size_t_neg_pow2, (size_t_small (n + 2 ^ k - 1)) by lia.
    apply land_align_mask; lia. }
  pose proof (Z.div_mod (n + 2 ^ k - 1) (2 ^ k) ltac:(lia)) as Hdm.
  pose proof (Z.mod_pos_bound (n + 2 ^ k - 1) (2 ^ k) H1) as Hb.
  split; [lia|]. split.
  - rewrite Hr, Z.mul_comm. apply Z.mod_mul. lia.
  - intros Ha. apply Z.mod_divide in Ha; [|lia]. destruct Ha as [q Hq].
    rewrite Hr. subst n.
    replace (q * 2 ^ k + 2 ^ k - 1) with ((2 ^ k - 1) + q * 2 ^ k) by lia.
    rewrite Z.div_add, Z.div_small by lia. lia.
Qed.

Lemma round_up_least_multiple_witness :
  let r := _ABYSS_ROUND_UP 13 (2 ^ 3) in
  13 <= r < 13 + 2 ^ 3 /\ r mod 2 ^ 3 = 0 /\ (13 mod 2 ^ 3 = 0 -> r = 13).
Proof.
  apply (round_up_least_multiple 3 13); lia.
Defined.

(** X2: a size within one alignment unit of [2^64] makes the sum of
    [_ABYSS_ROUND_UP] wrap around, and the macro gives 0. *)
Theorem round_up_wraps_to_zero (k n : Z) :
  0 <= k < 64 -> 2 ^ 64 - 2 ^ k < n < 2 ^ 64 ->
  _ABYSS_ROUND_UP n (2 ^ k) = 0.
Proof.
  intros Hk Hn.
  assert (H1 : 0 < 2 ^ k) by (apply Z.pow_pos_nonneg; lia).
  assert (H2 : 2 ^ k < 2 ^ 64) by (apply Z.pow_lt_mono_r; lia).
  unfold _ABYSS_ROUND_UP. rewrite size_t_neg_pow2 by lia.
  assert (Hx : size_t (n + 2 ^ k - 1) = n + 2 ^ k - 1 - 2 ^ 64).
  { unfold size_t. rewrite <- (Z.mod_add _ (-1) (2 ^ 64)) by lia.
    rewrite Z.mod_small by lia. lia. }
  rewrite Hx, land_align_mask by lia.
  rewrite Z.div_small by lia. lia.
Qed.

Lemma round_up_wraps_to_zero_witness : _ABYSS_ROUND_UP (2 ^ 64 - 1) (2 ^ 3) = 0.
Proof. apply (round_up_wraps_to_zero 3 (2 ^ 64 - 1)); lia. Defined.

(** ** Arena *)

Lemma arena_alloc_granted_eq (B : build) (arena : Z) (a : Abyss_Arena) (n : Z) :
  ABYSS_DATA_ALIGN B = 8 ->
  0 <= arena_offset a <= arena_size a -> arena_size a + 7 < 2 ^ 64 ->
  0 < n <= arena_size a - arena_offset a ->
  abyss_arena_alloc B arena a n
  = (abyss_handle_switch B
       (size_t (arena_buf B arena + arena_offset a))
       (size_t (arena_offset a + sizeof_Arena B)),
     {| arena_offset := 8 * ((arena_offset a + n + 7) / 8);
        arena_size := arena_size a |}).
Proof.
  intros Hal Ho Hs Hn. unfold abyss_arena_alloc.
  destruct (n =? 0) eqn:Ez; [apply Z.eqb_eq in Ez; lia|].
  rewrite (size_t_small (arena_size a - arena_offset a)) by lia.
  destruct (_ <? n) eqn:E; [apply Z.ltb_lt in E; lia|].
  rewrite Hal, (size_t_small (arena_offset a + n)) by lia.
  rewrite round_up_8 by lia. reflexivity.
Qed.

(** X4: in pointer mode, an [abyss_arena_alloc] that is granted while the
    offset is within [size] returns [&buf[offset]], a block that ends
    inside the caller's buffer, keeps [size], and moves the offset past
    the block by less than one alignment unit. *)
Theorem arena_alloc_block_in_buffer (B : build) (arena : Z) (a : Abyss_Arena) (n : Z) :
  ABYSS_HANDLE_MODE B = false -> ABYSS_DATA_ALIGN B = 8 ->
  0 <= arena -> 0 <= sizeof_Arena B ->
  arena + sizeof_Arena B + arena_size a + 7 < 2 ^ 64 ->
  0 <= arena_offset a <= arena_size a ->
  0 < n <= arena_size a - arena_offset a ->
  let hdl := fst (abyss_arena_alloc B arena a n) in
  let a' := snd (abyss_arena_alloc B arena a n) in
  hdl = arena + sizeof_Arena B + arena_offset a
  /\ hdl + n <= arena + sizeof_Arena B + arena_size a
  /\ arena_size a' = arena_size a
  /\ arena_offset a + n <= arena_offset a' < arena_offset a + n + 8.
Proof.
  intros Hm Hal Hp Hh Hend Ho Hn hdl a'. unfold hdl, a'.
  rewrite arena_alloc_granted_eq by lia.
  unfold abyss_handle_switch, arena_buf. rewrite Hm. cbn [fst snd arena_size arena_offset].
  rewrite (size_t_small (arena + sizeof_Arena B)) by lia.
  rewrite size_t_small by lia.
  pose proof (Z.div_mod (arena_offset a + n + 7) 8 ltac:(lia)) as Hdm.
  pose proof (Z.mod_pos_bound (arena_offset a + n + 7) 8 ltac:(lia)) as Hb.
  repeat split; lia.
Qed.

Lemma arena_alloc_block_in_buffer_witness :
  let a := {| arena_offset := 8; arena_size := 240 |} in
  let hdl := fst (abyss_arena_alloc (lp64 false) 1000 a 5) in
  let a' := snd (abyss_arena_alloc (lp64 false) 1000 a 5) in
  hdl = 1000 + 16 + 8
  /\ hdl + 5 <= 1000 + 16 + 240
  /\ arena_size a' = 240
  /\ 8 + 5 <= arena_offset a' < 8 + 5 + 8.
Proof.
  intros a.
  apply (arena_alloc_block_in_buffer (lp64 false) 1000 a 5);
    cbn; try reflexivity; lia.
Defined.

Lemma round_s_aligned (B : build) (sz : Z) :
  ABYSS_DATA_ALIGN B = 8 -> 0 <= sz -> sz + 7 < 2 ^ 64 -> sz mod 8 = 0 ->
  size_t (_ABYSS_ROUND_S B sz - sz) = 0.
Proof.
  intros Hal H0 Hmax Hmod. unfold _ABYSS_ROUND_S. rewrite Hal, round_up_8 by lia.
  apply Z.mod_divide in Hmod; [|lia]. destruct Hmod as [q ->].
  replace (q * 8 + 7) with (7 + q * 8) by lia.
  rewrite Z.div_add, Z.div_small by lia.
  replace (8 * (0 + q) - q * 8) with 0 by lia. reflexivity.
Qed.

(** [init] with the default alignment and an aligned header. *)
Lemma arena_init_aligned (B : build) (buf size : Z) :
  ABYSS_DATA_ALIGN B = 8 ->
  0 <= sizeof_Arena B -> sizeof_Arena B mod 8 = 0 ->
  sizeof_Arena B <= size -> size + 7 < 2 ^ 64 ->
  abyss_arena_init B buf size
  = (Some {| arena_offset := 0; arena_size := size - sizeof_Arena B |}, []).
Proof.
  intros Hal Hh Hmod Hsz Hmax. unfold abyss_arena_init.
  destruct (size <? sizeof_Arena B) eqn:E; [apply Z.ltb_lt in E; lia|].
  rewrite round_s_aligned by lia.
  rewrite (size_t_small (size - sizeof_Arena B)) by lia. reflexivity.
Qed.





Lemma arena_step_inv (B : build) (arena : Z) (a : Abyss_Arena) (op : arena_op) :
  ABYSS_DATA_ALIGN B = 8 ->
  0 <= sizeof_Arena B -> sizeof_Arena B + 7 < 2 ^ 64 -> sizeof_Arena B mod 8 = 0 ->
  arena_size a mod 8 = 0 -> arena_size a + 7 < 2 ^ 64 ->
  op_wf op -> arena_inv a ->
  arena_size (arena_step B arena a op) = arena_size a
  /\ arena_inv (arena_step B arena a op).
Proof.
  intros Hal Hh Hhm Hmod Hs8 Hmax Hwf [Ho Ho8].
  destruct op as [n|hdl|]; cbn [arena_step op_wf] in *.
  - destruct (Z.eq_dec n 0) as [->|Hn0]; [split; [reflexivity | split; assumption]|].
    destruct (Z_lt_dec (arena_size a - arena_offset a) n) as [Hbig|Hfit].
    + rewrite arena_alloc_too_big
        by (unfold arena_free_mem; rewrite size_t_small by lia; exact Hbig).
      split; [reflexivity | split; assumption].
    + rewrite arena_alloc_granted_eq by lia. unfold arena_inv.
      cbn [snd arena_size arena_offset].
      split; [reflexivity|]. split.
      * apply Z.mod_divide in Hs8; [|lia]. destruct Hs8 as [q Hq].
        assert ((arena_offset a + n + 7) / 8 <= q).
        { apply Z.lt_succ_r. apply Z.div_lt_upper_bound; lia. }
        assert (0 <= (arena_offset a + n + 7) / 8) by (apply Z.div_pos; lia).
        lia.
      * rewrite Z.mul_comm. apply Z.mod_mul. lia.
  - rewrite arena_free_keeps_arena. split; [reflexivity | split; assumption].
  - unfold abyss_arena_reset, arena_inv. cbn [arena_size arena_offset].
    split; [reflexivity|]. rewrite round_s_aligned by lia.
    split; [lia | reflexivity].
Qed.

(** X5: on a buffer whose size is a multiple of 8 (aligned header,
    default alignment), every sequence of alloc, free and reset calls
    after [abyss_arena_init] keeps [size] unchanged and the offset a
    multiple of 8 between 0 and [size]. *)
Theorem arena_offset_within_size (B : build) (buf arena size : Z) (a0 : Abyss_Arena)
  (ops : list arena_op) :
  ABYSS_DATA_ALIGN B = 8 ->
  0 <= sizeof_Arena B -> sizeof_Arena B mod 8 = 0 ->
  size mod 8 = 0 -> size + 7 < 2 ^ 64 ->
  fst (abyss_arena_init B buf size) = Some a0 ->
  Forall op_wf ops ->
  let a := arena_run B arena a0 ops in
  arena_size a = size - sizeof_Arena B
  /\ 0 <= arena_offset a <= arena_size a
  /\ arena_offset a mod 8 = 0.
Proof.
  intros Hal Hh Hmod Hs8 Hmax Hinit Hwf.
  assert (Hsz : sizeof_Arena B <= size).
  { unfold abyss_arena_init in Hinit.
    destruct (size <? sizeof_Arena B) eqn:E; [discriminate|].
    apply Z.ltb_ge in E. exact E. }
  rewrite (arena_init_aligned B buf size Hal Hh Hmod Hsz Hmax) in Hinit. cbn [fst] in Hinit. injection Hinit as <-.
  set (a0 := {| arena_offset := 0; arena_size := size - sizeof_Arena B |}).
  assert (Hd : (size - sizeof_Arena B) mod 8 = 0)
    by (rewrite Zminus_mod, Hs8, Hmod; reflexivity).
  assert (Hgen : forall ops a, Forall op_wf ops ->
            arena_size a = size - sizeof_Arena B -> arena_inv a ->
            arena_size (arena_run B arena a ops) = size - sizeof_Arena B
            /\ arena_inv (arena_run B arena a ops)).
  { clear Hwf ops. intros ops. induction ops as [|op ops IH]; intros a Hwf Hsa Hinv.
    - split; assumption.
    - inversion Hwf as [|? ? Hop Hops]; subst.
      destruct (arena_step_inv B arena a op) as [Hs' Hi'];
        try assumption; try lia; [rewrite Hsa; exact Hd|].
      cbn [arena_run fold_left]. apply IH; [assumption | lia | assumption]. }
  destruct (Hgen ops a0 Hwf eq_refl) as [Hs [Ho Ho8]].
  { split; cbn; [lia | reflexivity]. }
  intros a. auto.
Qed.

Lemma arena_offset_within_size_witness :
  let ops := [OpAlloc 100; OpFree 1016; OpAlloc 200; OpReset; OpAlloc 8] in
  let a := arena_run (lp64 false) 1000 {| arena_offset := 0; arena_size := 240 |} ops in
  arena_size a = 256 - 16
  /\ 0 <= arena_offset a <= arena_size a
  /\ arena_offset a mod 8 = 0.
Proof.
  intros ops.
  apply (arena_offset_within_size (lp64 false) 1000 1000 256
           {| arena_offset := 0; arena_size := 240 |} ops);
    try reflexivity; try (cbn; lia).
  repeat constructor; cbn; lia.
Defined.

Lemma block_starts_gap (ns : list Z) :
  forall (p : Z) (i : nat) (x y n : Z),
    block_starts p ns !! i = Some x ->
    block_starts p ns !! S i = Some y ->
    ns !! i = Some n ->
    x + n <= y /\ y < x + n + 8.
Proof.
  induction ns as [|m ns IH]; intros p i x y n Hx Hy Hn; [discriminate|].
  destruct i as [|i].
  - cbn in Hx, Hn. injection Hx as <-. injection Hn as <-.
    destruct ns as [|m' ns]; [discriminate|]. cbn in Hy. injection Hy as <-.
    pose proof (Z.div_mod (m + 7) 8 ltac:(lia)).
    pose proof (Z.mod_pos_bound (m + 7) 8 ltac:(lia)). lia.
  - cbn in Hx, Hy, Hn. eapply IH; eassumption.
Qed.

Lemma blocks_total_nonneg (ns : list Z) :
  Forall (fun n => 0 < n) ns -> 0 <= blocks_total ns.
Proof.
  induction 1 as [|m ms Hm _ IHm]; cbn; [lia|]. fold (blocks_total ms).
  assert (0 <= (m + 7) / 8) by (apply Z.div_pos; lia). lia.
Qed.

(** X6: in pointer mode, consecutive requests whose rounded sizes fit the
    space left are all granted; the blocks start at [&buf[offset]] and
    follow each other at the sizes rounded up to 8, so each block ends at
    or before the start of the next, and the offset ends at the sum. *)
Theorem arena_alloc_seq_blocks (B : build) (arena : Z) (ns : list Z) :
  forall a : Abyss_Arena,
  ABYSS_HANDLE_MODE B = false -> ABYSS_DATA_ALIGN B = 8 ->
  0 <= arena -> 0 <= sizeof_Arena B ->
  arena + sizeof_Arena B + arena_size a + 7 < 2 ^ 64 ->
  0 <= arena_offset a -> arena_offset a mod 8 = 0 ->
  Forall (fun n => 0 < n) ns ->
  arena_offset a + blocks_total ns <= arena_size a ->
  let hdls := fst (alloc_seq B arena a ns) in
  hdls = block_starts (arena + sizeof_Arena B + arena_offset a) ns
  /\ snd (alloc_seq B arena a ns)
     = {| arena_offset := arena_offset a + blocks_total ns;
          arena_size := arena_size a |}
  /\ (forall (i : nat) (x y n : Z),
        hdls !! i = Some x -> hdls !! S i = Some y -> ns !! i = Some n ->
        x + n <= y).
Proof.
  intros a Hm Hal Hp Hh Hend Ho Ho8 Hpos Htot hdls.
  assert (Hgen : alloc_seq B arena a ns
                 = (block_starts (arena + sizeof_Arena B + arena_offset a) ns,
                    {| arena_offset := arena_offset a + blocks_total ns;
                       arena_size := arena_size a |})).
  { clear hdls. revert a Hend Ho Ho8 Htot.
    induction Hpos as [|n ns Hn Hns IH]; intros a Hend Ho Ho8 Htot.
    - cbn. rewrite Z.add_0_r. destruct a; reflexivity.
    - cbn [blocks_total fold_right] in Htot. fold (blocks_total ns) in Htot.
      pose proof (blocks_total_nonneg ns Hns) as Hbt.
      pose proof (Z.div_mod (n + 7) 8 ltac:(lia)) as Hdm.
      pose proof (Z.mod_pos_bound (n + 7) 8 ltac:(lia)) as Hb.
      assert (Hround : 8 * ((arena_offset a + n + 7) / 8)
                       = arena_offset a + 8 * ((n + 7) / 8)).
      { apply Z.mod_divide in Ho8; [|lia]. destruct Ho8 as [q Hq]. rewrite Hq.
        replace (q * 8 + n + 7) with ((n + 7) + q * 8) by lia.
        rewrite Z.div_add by lia. lia. }
      cbn [alloc_seq]. rewrite arena_alloc_granted_eq by lia.
      rewrite Hround. unfold abyss_handle_switch, arena_buf. rewrite Hm.
      rewrite (size_t_small (arena + sizeof_Arena B)) by lia.
      rewrite size_t_small by lia.
      rewrite (IH {| arena_offset := arena_offset a + 8 * ((n + 7) / 8);
                     arena_size := arena_size a |});
        cbn [arena_offset arena_size]; try assumption; try lia.
      + cbn [block_starts blocks_total fold_right]. fold (blocks_total ns).
        do 2 f_equal; [f_equal|]; lia.
      + replace (arena_offset a + 8 * ((n + 7) / 8))
          with (arena_offset a + (n + 7) / 8 * 8) by lia.
        rewrite Z.mod_add by lia. exact Ho8. }
  unfold hdls. rewrite Hgen. cbn [fst snd].
  split; [reflexivity|]. split; [reflexivity|].
  intros i x y n Hx Hy Hn.
  apply (block_starts_gap ns _ i x y n Hx Hy Hn).
Qed.

Lemma arena_alloc_seq_blocks_witness :
  fst (alloc_seq (lp64 false) 1000 {| arena_offset := 0; arena_size := 240 |} [5; 16; 1])
  = block_starts (1000 + 16 + 0) [5; 16; 1].
Proof.
  apply (arena_alloc_seq_blocks (lp64 false) 1000 [5; 16; 1]
           {| arena_offset := 0; arena_size := 240 |});
    try reflexivity; try (cbn; lia).
  - repeat constructor; lia.
  - vm_compute. discriminate.
Defined.

Lemma arena_step_size (B : build) (arena : Z) (a : Abyss_Arena) (op : arena_op) :
  arena_size (arena_step B arena a op) = arena_size a.
Proof.
  destruct op as [n|hdl|]; cbn [arena_step].
  - unfold abyss_arena_alloc. destruct (n =? 0); [reflexivity|].
    destruct (_ <? n); reflexivity.
  - rewrite arena_free_keeps_arena. reflexivity.
  - reflexivity.
Qed.

Lemma arena_run_size (B : build) (arena : Z) (ops : list arena_op) :
  forall a : Abyss_Arena, arena_size (arena_run B arena a ops) = arena_size a.
Proof.
  induction ops as [|op ops IH]; intros a; [reflexivity|].
  cbn [arena_run fold_left]. fold (arena_run B arena (arena_step B arena a op) ops).
  rewrite IH. apply arena_step_size.
Qed.

(** X7: whatever calls were made on an Arena since [abyss_arena_init],
    [abyss_arena_reset] brings it back to exactly the state [init] left. *)
Theorem arena_reset_restores_init (B : build) (buf arena size : Z)
  (a0 : Abyss_Arena) (ops : list arena_op) :
  fst (abyss_arena_init B buf size) = Some a0 ->
  abyss_arena_reset B (arena_run B arena a0 ops) = a0.
Proof.
  intros Hinit. unfold abyss_arena_reset. rewrite arena_run_size.
  unfold abyss_arena_init in Hinit.
  destruct (size <? sizeof_Arena B); [discriminate|].
  cbn [fst] in Hinit. injection Hinit as <-. reflexivity.
Qed.

Lemma arena_reset_restores_init_witness :
  abyss_arena_reset (lp64 false)
    (arena_run (lp64 false) 1000 {| arena_offset := 0; arena_size := 240 |}
       [OpAlloc 24; OpAlloc 7; OpFree 1016])
  = {| arena_offset := 0; arena_size := 240 |}.
Proof.
  apply (arena_reset_restores_init (lp64 false) 1000 1000 256). reflexivity.
Defined.

(** ** Handles and Surge *)

Lemma size_t_add_l (x y : Z) : size_t (size_t x + y) = size_t (x + y).
Proof. unfold size_t. apply Zplus_mod_idemp_l. Qed.

Lemma size_t_add_r (x y : Z) : size_t (x + size_t y) = size_t (x + y).
Proof. unfold size_t. apply Zplus_mod_idemp_r. Qed.

(** X8: in pointer mode as in handle mode, the handle value one granted
    [abyss_arena_alloc] call returned, once held in a variable, resolves
    through [abyss_handle_get_ptr] to [&buf[offset]], with [offset] the
    offset before the call. *)
Theorem arena_alloc_handle_resolves (B : build) (arena : Z) (a : Abyss_Arena) (n : Z) :
  0 <= arena_offset a -> 0 < sizeof_Arena B ->
  arena_offset a + sizeof_Arena B < 2 ^ 64 ->
  0 < n <= arena_free_mem a ->
  abyss_handle_get_ptr B arena (fst (abyss_arena_alloc B arena a n))
  = size_t (arena_buf B arena + arena_offset a).
Proof.
  intros Ho Hh Hmax [Hn Hfit]. unfold abyss_arena_alloc.
  destruct (n =? 0) eqn:Ez; [apply Z.eqb_eq in Ez; lia|].
  unfold arena_free_mem in Hfit.
  destruct (_ <? n) eqn:E; [apply Z.ltb_lt in E; lia|].
  cbn [fst]. unfold abyss_handle_get_ptr, abyss_handle_switch.
  destruct (ABYSS_HANDLE_MODE B); [|reflexivity].
  rewrite (size_t_small (arena_offset a + sizeof_Arena B)) by lia.
  destruct (arena_offset a + sizeof_Arena B =? 0) eqn:E0;
    [apply Z.eqb_eq in E0; lia|].
  unfold arena_buf. rewrite size_t_add_l. f_equal. lia.
Qed.

Lemma arena_alloc_handle_resolves_witness :
  abyss_handle_get_ptr (lp64 true) 1000
    (fst (abyss_arena_alloc (lp64 true) 1000 {| arena_offset := 8; arena_size := 240 |} 5))
  = size_t (arena_buf (lp64 true) 1000 + 8).
Proof.
  apply (arena_alloc_handle_resolves (lp64 true) 1000
           {| arena_offset := 8; arena_size := 240 |} 5);
    vm_compute; try split; congruence.
Defined.

(** X9: in handle mode a handle converted to a pointer and back is the
    same handle, null included, as long as [base + hdl] is not [2^64]. *)
Theorem handle_ptr_roundtrip (B : build) (base hdl : Z) :
  ABYSS_HANDLE_MODE B = true ->
  0 <= base < 2 ^ 64 -> 0 <= hdl < 2 ^ 64 -> base + hdl <> 2 ^ 64 ->
  abyss_handle_get_hdl B base (abyss_handle_get_ptr B base hdl) = hdl.
Proof.
  intros Hm Hb Hh Hne. unfold abyss_handle_get_hdl, abyss_handle_get_ptr.
  rewrite Hm. destruct (hdl =? 0) eqn:E0.
  - apply Z.eqb_eq in E0. subst. reflexivity.
  - apply Z.eqb_neq in E0.
    assert (Hp : size_t (base + hdl) <> 0).
    { unfold size_t. destruct (Z_lt_dec (base + hdl) (2 ^ 64)).
      - rewrite Z.mod_small by lia. lia.
      - rewrite <- (Z.mod_add _ (-1) (2 ^ 64)) by lia.
        rewrite Z.mod_small by lia. lia. }
    destruct (size_t (base + hdl) =? 0) eqn:E1; [apply Z.eqb_eq in E1; contradiction|].
    unfold size_t. rewrite Zminus_mod_idemp_l.
    replace (base + hdl - base) with hdl by lia. apply Z.mod_small. lia.
Qed.

Lemma handle_ptr_roundtrip_witness :
  abyss_handle_get_hdl (lp64 true) 4096 (abyss_handle_get_ptr (lp64 true) 4096 24) = 24.
Proof.
  apply (handle_ptr_roundtrip (lp64 true) 4096 24); [reflexivity | lia | lia | lia].
Defined.

(** X10: moving a handle by [off] with [abyss_handle_rel] and resolving it
    gives the resolved pointer moved by [off]; the null handle stays
    null. *)
Theorem handle_rel_resolves (B : build) (base hdl off : Z) :
  (hdl = 0 \/ (size_t (hdl + off) <> 0 /\ size_t (base + hdl) <> 0)) ->
  abyss_handle_get_ptr B base (abyss_handle_rel hdl off)
  = abyss_handle_rel (abyss_handle_get_ptr B base hdl) off.
Proof.
  intros Hc. unfold abyss_handle_get_ptr, abyss_handle_rel.
  destruct (ABYSS_HANDLE_MODE B); [|reflexivity].
  destruct Hc as [->|[H1 H2]]; [reflexivity|].
  destruct (hdl =? 0) eqn:E0; [reflexivity|].
  destruct (size_t (hdl + off) =? 0) eqn:E1; [apply Z.eqb_eq in E1; contradiction|].
  destruct (size_t (base + hdl) =? 0) eqn:E2; [apply Z.eqb_eq in E2; contradiction|].
  rewrite size_t_add_r, size_t_add_l. f_equal. lia.
Qed.

Lemma handle_rel_resolves_witness :
  abyss_handle_get_ptr (lp64 true) 4096 (abyss_handle_rel 16 16)
  = abyss_handle_rel (abyss_handle_get_ptr (lp64 true) 4096 16) 16.
Proof.
  apply (handle_rel_resolves (lp64 true) 4096 16 16).
  right. vm_compute. split; discriminate.
Defined.


(** X12: [abyss_surge_free] never changes [size]; it either leaves the
    Surge as it was or, printing nothing, takes exactly one off a positive
    [count]; whenever it prints a diagnostic, and whenever [count] is 0,
    the Surge stays as it was. *)
Theorem surge_free_effect (B : build) (surge : Z) (s : Abyss_Surge) (hdl : Z) :
  0 <= surge_count s < 2 ^ 64 ->
  let s' := fst (abyss_surge_free B surge s hdl) in
  let w := snd (abyss_surge_free B surge s hdl) in
  surge_size s' = surge_size s
  /\ (s' = s \/ (w = [] /\ 0 < surge_count s
                 /\ surge_count s' = surge_count s - 1))
  /\ (w <> [] -> s' = s)
  /\ (surge_count s = 0 -> s' = s).
Proof.
  intros Hc s' w. unfold s', w, abyss_surge_free.
  destruct (abyss_handle_is_NULL hdl); [cbn; auto|].
  destruct (negb _); [cbn; auto|].
  destruct (surge_count s =? 0) eqn:E0; [cbn; auto|].
  apply Z.eqb_neq in E0. cbn [fst snd surge_size surge_count].
  split; [reflexivity|]. split; [|split].
  - right. split; [reflexivity|]. split; [lia|]. apply size_t_small. lia.
  - intros Hw. contradiction.
  - intros H0. contradiction.
Qed.

Lemma surge_free_effect_witness :
  let s := {| surge_size := 232; surge_offset := 16; surge_count := 2 |} in
  surge_size (fst (abyss_surge_free (lp64 false) 1000 s 1024)) = surge_size s.
Proof.
  intros s.
  apply (surge_free_effect (lp64 false) 1000 s 1024). cbn. lia.
Defined.

(** X13: the [free] of an accepted handle on a Surge with [count == 1]
    leaves the Surge exactly as [abyss_surge_reset] would, and prints
    nothing. *)
Theorem surge_drain_is_reset (B : build) (surge : Z) (s : Abyss_Surge) (hdl : Z) :
  surge_count s = 1 -> hdl <> 0 ->
  _abyss_surge_contains B surge s (abyss_handle_get_ptr B surge hdl) = true ->
  abyss_surge_free B surge s hdl = (abyss_surge_reset B s, []).
Proof.
  intros Hc Hh Hin. unfold abyss_surge_free, abyss_handle_is_NULL.
  destruct (hdl =? 0) eqn:E0; [apply Z.eqb_eq in E0; contradiction|].
  rewrite Hin, Hc. reflexivity.
Qed.

Lemma surge_drain_is_reset_witness :
  let s := {| surge_size := 232; surge_offset := 8; surge_count := 1 |} in
  abyss_surge_free (lp64 false) 1000 s 1024 = (abyss_surge_reset (lp64 false) s, []).
Proof.
  intros s. apply (surge_drain_is_reset (lp64 false) 1000 s 1024);
    [reflexivity | discriminate | reflexivity].
Defined.

(** ** Totem: push and pop *)

Lemma short_high z : 2 ^ 15 <= z < 2 ^ 16 -> short z < 0.
Proof.
  intros Hz. unfold short. rewrite Z.mod_small by lia.
  destruct (_ <? _) eqn:E; [apply Z.ltb_lt in E; lia | lia].
Qed.

(** The guard of [pop]: a [head] that reads as a negative [short] refuses
    every index. *)
Lemma totem_pop_negative_head (t : Abyss_Totem) (indx : Z) :
  short (totem_head t) < 0 ->
  abyss_totem_pop t indx = Some (0, None, t).
Proof.
  intros Hs. unfold abyss_totem_pop.
  apply Z.ltb_lt in Hs. rewrite Hs, orb_true_r. reflexivity.
Qed.

(** X15: [abyss_totem_pop] reads [head] as a [short]: on a Totem whose
    [head] is 32768 or more every index is refused, null is returned and
    the Totem is unchanged. *)
Theorem totem_pop_refused_above_32768 (t : Abyss_Totem) (indx : Z) :
  2 ^ 15 <= totem_head t < 2 ^ 16 ->
  abyss_totem_pop t indx = Some (0, None, t).
Proof.
  intros Hh. apply totem_pop_negative_head. apply short_high. exact Hh.
Qed.

Lemma totem_pop_refused_above_32768_witness :
  let t := {| totem_head := 40000; totem_capacity := 50000;
              totem_allocators := {[ 0 := {| slot_ptr := 2000; slot_type := ABYSS_ARENA_T |} ]} |} in
  abyss_totem_pop t 0 = Some (0, None, t).
Proof.
  intros t. apply (totem_pop_refused_above_32768 t 0). cbn. lia.
Defined.

(** X14: on a Totem fresh from [abyss_totem_init], [abyss_totem_pop]
    returns null for every index, stores no type and leaves the Totem
    unchanged. *)
Theorem totem_pop_empty (B : build) (buf size : Z) (t : Abyss_Totem) (indx : Z) :
  fst (abyss_totem_init B buf size) = Some t ->
  abyss_totem_pop t indx = Some (0, None, t).
Proof.
  intros Hi. unfold abyss_totem_init in Hi.
  destruct (size <? sizeof_Totem B); [discriminate|].
  cbn [fst] in Hi. injection Hi as <-.
  apply totem_pop_negative_head. cbn [totem_head]. reflexivity.
Qed.

Lemma totem_pop_empty_witness :
  abyss_totem_pop Runs.totem72 0 = Some (0, None, Runs.totem72).
Proof.
  apply (totem_pop_empty Runs.P 5000 72 Runs.totem72 0). reflexivity.
Defined.

(** X16: on a Totem of [k < 32768] children with room left, a push
    returns the child and [pop(-1)] right after returns that child with
    its type and restores [head] and [capacity]; the array keeps the
    child's slot at index [k]. *)
Theorem totem_push_pop (t : Abyss_Totem) (k allocator : Z) (type : abyss_allocator_t) :
  0 <= k < 2 ^ 15 -> totem_head t = ushort (k - 1) ->
  k < totem_capacity t ->
  fst (abyss_totem_push t allocator type) = allocator
  /\ abyss_totem_pop (snd (abyss_totem_push t allocator type)) (-1)
     = Some (allocator, Some (allocator_t_value type),
             {| totem_head := totem_head t;
                totem_capacity := totem_capacity t;
                totem_allocators :=
                  <[k := {| slot_ptr := allocator; slot_type := type |}]>
                    (totem_allocators t) |}).
Proof.
  intros Hk Hh Hc. unfold abyss_totem_push.
  rewrite Hh, ushort_succ_pred, ushort_small by lia.
  destruct (totem_capacity t <=? k) eqn:E; [apply Z.leb_le in E; lia|].
  cbn [fst snd]. split; [reflexivity|].
  unfold abyss_totem_pop. cbn [totem_head totem_capacity totem_allocators].
  replace (-1 <? 0) with true by reflexivity.
  replace (k + -1 + 1) with k by lia.
  destruct (totem_capacity t <? k) eqn:E1; [apply Z.ltb_lt in E1; lia|].
  rewrite short_small by lia.
  destruct (k <? 0) eqn:E2; [apply Z.ltb_lt in E2; lia|].
  cbn [orb]. rewrite lookup_insert_eq. cbn [mbind option_bind slot_ptr slot_type].
  rewrite Z.sub_diag. reflexivity.
Qed.

Lemma totem_push_pop_witness :
  abyss_totem_pop (snd (abyss_totem_push Runs.totem72 2000 ABYSS_SURGE_T)) (-1)
  = Some (2000, Some 1,
          {| totem_head := 65535; totem_capacity := 8;
             totem_allocators :=
               <[0 := {| slot_ptr := 2000; slot_type := ABYSS_SURGE_T |}]> ∅ |}).
Proof.
  apply (totem_push_pop Runs.totem72 0 2000 ABYSS_SURGE_T);
    [lia | reflexivity | cbn; lia].
Defined.

Lemma copy_slot_lookup (m : gmap Z slot) (dst src j : Z) :
  copy_slot m dst src !! j = if decide (j = dst) then m !! src else m !! j.
Proof.
  unfold copy_slot. destruct (m !! src) as [s|] eqn:Es.
  - destruct (decide (j = dst)) as [->|Hne].
    + rewrite lookup_insert_eq. reflexivity.
    + rewrite lookup_insert_ne by congruence. reflexivity.
  - destruct (decide (j = dst)) as [->|Hne].
    + rewrite lookup_delete_eq. reflexivity.
    + rewrite lookup_delete_ne by congruence. reflexivity.
Qed.

Lemma shift_down_lookup (n : nat) :
  forall (i : Z) (m : gmap Z slot) (j : Z),
    shift_down n i m !! j
    = if decide (i <= j < i + Z.of_nat n) then m !! (j + 1) else m !! j.
Proof.
  induction n as [|n IH]; intros i m j.
  - cbn [shift_down]. destruct (decide _); [lia | reflexivity].
  - cbn [shift_down]. rewrite IH, !copy_slot_lookup.
    destruct (decide (i + 1 <= j < i + 1 + Z.of_nat n)) as [H1|H1].
    + destruct (decide (j + 1 = i)); [lia|].
      destruct (decide (i <= j < i + Z.of_nat (S n))); [reflexivity | lia].
    + destruct (decide (j = i)) as [->|Hne].
      * destruct (decide (i <= i < i + Z.of_nat (S n))); [reflexivity | lia].
      * destruct (decide (i <= j < i + Z.of_nat (S n))); [lia | reflexivity].
Qed.

(** X17: [abyss_totem_pop] at an index that resolves (a negative index
    counting from [head + 1]) into [[0, head]] returns the child and type
    of that slot, decrements [head], keeps [capacity], moves every later
    slot down by one and leaves the other slots as they were. *)
Theorem totem_pop_in_range (t : Abyss_Totem) (indx r : Z) (s : slot) :
  0 <= totem_head t < 2 ^ 15 -> totem_head t <= totem_capacity t ->
  r = (if indx <? 0 then totem_head t + indx + 1 else indx) ->
  0 <= r <= totem_head t ->
  totem_allocators t !! r = Some s ->
  exists t' : Abyss_Totem,
    abyss_totem_pop t indx
    = Some (slot_ptr s, Some (allocator_t_value (slot_type s)), t')
    /\ totem_head t' = ushort (totem_head t - 1)
    /\ totem_capacity t' = totem_capacity t
    /\ forall j : Z,
         totem_allocators t' !! j
         = if decide (r <= j < totem_head t)
           then totem_allocators t !! (j + 1)
           else totem_allocators t !! j.
Proof.
  intros Hh Hc Hr Hin Hs. unfold abyss_totem_pop. rewrite <- Hr.
  destruct (totem_capacity t <? r) eqn:E1; [apply Z.ltb_lt in E1; lia|].
  rewrite short_small by lia.
  destruct (totem_head t <? 0) eqn:E2; [apply Z.ltb_lt in E2; lia|].
  cbn [orb]. rewrite Hs. cbn [mbind option_bind].
  eexists. split; [reflexivity|]. cbn [totem_head totem_capacity totem_allocators].
  split; [reflexivity|]. split; [reflexivity|].
  intros j. rewrite shift_down_lookup.
  rewrite Z2Nat.id by lia.
  destruct (decide (r <= j < r + (totem_head t - r)));
    destruct (decide (r <= j < totem_head t)); try reflexivity; lia.
Qed.

Lemma totem_pop_in_range_witness :
  exists t' : Abyss_Totem,
    abyss_totem_pop Runs.retry_totem (-2)
    = Some (2000, Some 2, t')
    /\ totem_head t' = 0
    /\ totem_allocators t' !! 0
       = Some {| slot_ptr := 3000; slot_type := ABYSS_ARENA_T |}.
Proof.
  destruct (totem_pop_in_range Runs.retry_totem (-2) 0
              {| slot_ptr := 2000; slot_type := ABYSS_ARENA_T |})
    as (t' & Hp & Hh & _ & Hl);
    [vm_compute; split; [discriminate | reflexivity]
    | vm_compute; discriminate
    | reflexivity
    | vm_compute; split; discriminate
    | reflexivity |].
  exists t'. split; [exact Hp|]. split; [exact Hh|].
  rewrite Hl. reflexivity.
Defined.

(** X18: an empty Totem takes exactly [capacity] children: pushing
    [capacity] of them returns each child and stores it at the index of
    its turn, and every further push returns null and changes nothing. *)
Theorem totem_push_until_full (t : Abyss_Totem) (cs : list slot) :
  totem_head t = ushort (-1) ->
  Z.of_nat (length cs) = totem_capacity t -> totem_capacity t < 2 ^ 16 ->
  let t' := snd (push_all t cs) in
  fst (push_all t cs) = map slot_ptr cs
  /\ (forall j : nat, (j < length cs)%nat ->
        totem_allocators t' !! Z.of_nat j = cs !! j)
  /\ forall (allocator : Z) (type : abyss_allocator_t),
       abyss_totem_push t' allocator type = (abyss_handle_NULL, t').
Proof.
  intros Hh Hlen Hcap t'.
  destruct (push_all_room cs t 0) as (Hr & Hhd & Hcp & _ & Hnew);
    [lia | exact Hh | lia | lia |].
  split; [exact Hr|]. split.
  - intros j Hj. rewrite <- (Hnew j Hj). reflexivity.
  - intros allocator type. unfold abyss_totem_push. fold t'.
    unfold t'. rewrite Hcp, Hhd.
    replace (0 + Z.of_nat (length cs) - 1) with (totem_capacity t - 1) by lia.
    rewrite ushort_succ_pred, ushort_small by lia.
    rewrite Z.leb_refl. reflexivity.
Qed.

Lemma totem_push_until_full_witness :
  let t := {| totem_head := 65535; totem_capacity := 2; totem_allocators := ∅ |} in
  let cs := [ {| slot_ptr := 2000; slot_type := ABYSS_ARENA_T |};
              {| slot_ptr := 3000; slot_type := ABYSS_SURGE_T |} ] in
  fst (push_all t cs) = map slot_ptr cs.
Proof.
  intros t cs.
  apply (totem_push_until_full t cs); [reflexivity | reflexivity | cbn; lia].
Defined.

(** ** Totem: alloc over the store *)

Lemma load_totem_some (h : gmap Z object) (p : Z) (t : Abyss_Totem) :
  h !! p = Some (ObjTotem t) -> load_totem h p = Some t.
Proof. intros H. unfold load_totem. rewrite H. reflexivity. Qed.

Lemma load_arena_some (h : gmap Z object) (p : Z) (a : Abyss_Arena) :
  h !! p = Some (ObjArena a) -> load_arena h p = Some a.
Proof. intros H. unfold load_arena. rewrite H. reflexivity. Qed.

Lemma load_surge_some (h : gmap Z object) (p : Z) (s : Abyss_Surge) :
  h !! p = Some (ObjSurge s) -> load_surge h p = Some s.
Proof. intros H. unfold load_surge. rewrite H. reflexivity. Qed.

Lemma head_loop_count (t : Abyss_Totem) :
  0 <= totem_head t ->
  Z.to_nat (totem_head t + 1) = S (Z.to_nat (totem_head t))
  /\ Z.of_nat (Z.to_nat (totem_head t)) = totem_head t.
Proof. intros H. split; lia. Qed.



(** X20: a Totem with one child answers as the child: for an Arena or a
    Surge the result and the new state are those of the child's own
    alloc, and for a nested Totem the call is that of the nested Totem
    with one level of nesting less. *)
Theorem totem_alloc_single_child
  (B : build) (fuel : nat) (h : gmap Z object) (totem : Z) (t : Abyss_Totem)
  (p n : Z) :
  h !! totem = Some (ObjTotem t) -> totem_head t = 0 ->
  (forall a, totem_allocators t !! 0 = Some {| slot_ptr := p; slot_type := ABYSS_ARENA_T |} ->
             h !! p = Some (ObjArena a) ->
             abyss_totem_alloc B (S fuel) totem n h
             = Some (fst (abyss_arena_alloc B p a n),
                     <[p := ObjArena (snd (abyss_arena_alloc B p a n))]> h))
  /\ (forall s0, totem_allocators t !! 0 = Some {| slot_ptr := p; slot_type := ABYSS_SURGE_T |} ->
             h !! p = Some (ObjSurge s0) ->
             abyss_totem_alloc B (S fuel) totem n h
             = Some (fst (abyss_surge_alloc B p s0 n),
                     <[p := ObjSurge (snd (abyss_surge_alloc B p s0 n))]> h))
  /\ (totem_allocators t !! 0 = Some {| slot_ptr := p; slot_type := ABYSS_TOTEM_T |} ->
      abyss_totem_alloc B (S fuel) totem n h = abyss_totem_alloc B fuel p n h).
Proof.
  intros Ht Hh.
  assert (Hstep : forall s, totem_allocators t !! 0 = Some s ->
            abyss_totem_alloc B (S fuel) totem n h
            = alloc_child B (abyss_totem_alloc B fuel) s n h).
  { intros s Hs. cbn [abyss_totem_alloc]. rewrite (load_totem_some _ _ _ Ht).
    cbn [mbind option_bind]. rewrite Hh. change (Z.to_nat (0 + 1)) with 1%nat.
    cbn [alloc_loop]. rewrite (load_totem_some _ _ _ Ht). cbn [mbind option_bind].
    change (Z.of_nat 0) with 0. rewrite Hs. cbn [mbind option_bind].
    destruct (alloc_child B (abyss_totem_alloc B fuel) s n h) as [[hdl h']|];
      [|reflexivity].
    cbn [mbind option_bind]. destruct (abyss_handle_is_NULL hdl); reflexivity. }
  split; [|split].
  - intros a Hs Ha. rewrite (Hstep _ Hs). unfold alloc_child. cbn [slot_type slot_ptr].
    rewrite (load_arena_some _ _ _ Ha). cbn [mbind option_bind].
    destruct (abyss_arena_alloc B p a n). reflexivity.
  - intros s0 Hs Hs0. rewrite (Hstep _ Hs). unfold alloc_child. cbn [slot_type slot_ptr].
    rewrite (load_surge_some _ _ _ Hs0). cbn [mbind option_bind].
    destruct (abyss_surge_alloc B p s0 n). reflexivity.
  - intros Hs. rewrite (Hstep _ Hs). reflexivity.
Qed.

Lemma totem_alloc_single_child_witness :
  abyss_totem_alloc Runs.P 1 5000 8 Runs.one_arena_store
  = Some (fst (abyss_arena_alloc Runs.P 2000 {| arena_offset := 8; arena_size := 240 |} 8),
          <[2000 := ObjArena (snd (abyss_arena_alloc Runs.P 2000
                                     {| arena_offset := 8; arena_size := 240 |} 8))]>
            Runs.one_arena_store).
Proof.
  destruct (totem_alloc_single_child Runs.P 0 Runs.one_arena_store 5000
              (snd (abyss_totem_push Runs.totem72 2000 ABYSS_ARENA_T)) 2000 8)
    as (Ha & _); [reflexivity | reflexivity |].
  apply Ha; reflexivity.
Defined.



(** ** Totem: contains, reset and free over the store *)

(** X23: when the head child of a Totem is itself a Totem,
    [_abyss_totem_contains] calls itself on the same Totem and pointer
    again: no number of nested calls gives a result. *)
Theorem totem_contains_never_returns
  (B : build) (h : gmap Z object) (totem ptr : Z) (t : Abyss_Totem) (s : slot) :
  h !! totem = Some (ObjTotem t) -> 0 <= totem_head t ->
  totem_allocators t !! totem_head t = Some s ->
  slot_type s = ABYSS_TOTEM_T ->
  forall fuel : nat, _abyss_totem_contains B fuel totem ptr h = None.
Proof.
  intros Ht Hh Hs Hty fuel.
  destruct (head_loop_count t Hh) as [Hc Hi].
  induction fuel as [|fuel IH]; [reflexivity|].
  cbn [_abyss_totem_contains]. rewrite (load_totem_some _ _ _ Ht).
  cbn [mbind option_bind]. rewrite Hc. cbn [contains_loop].
  rewrite (load_totem_some _ _ _ Ht). cbn [mbind option_bind].
  rewrite Hi, Hs. cbn [mbind option_bind]. unfold contains_child.
  rewrite Hty, IH. reflexivity.
Qed.

Lemma reset_obj_idem (B : build) (o : object) :
  reset_obj B (reset_obj B o) = reset_obj B o.
Proof. destruct o; reflexivity. Qed.

Lemma child_ptrs_S (t : Abyss_Totem) (i : nat) :
  child_ptrs t (S i)
  = child_ptrs t i
    ++ match totem_allocators t !! Z.of_nat i with
       | Some s => [slot_ptr s]
       | None => []
       end.
Proof.
  unfold child_ptrs. rewrite seq_S, omap_app. f_equal. simpl.
  destruct (totem_allocators t !! Z.of_nat i); reflexivity.
Qed.

Lemma flat_slot_insert (B : build) (h : gmap Z object) (totem : Z) (t : Abyss_Totem)
  (p : Z) (o : object) (i : nat) :
  h !! p = Some o -> flat_slot h totem t i ->
  flat_slot (<[p := reset_obj B o]> h) totem t i.
Proof.
  intros Hp (s & Hs & Hne & Hobj). exists s. split; [exact Hs|]. split; [exact Hne|].
  destruct (decide (slot_ptr s = p)) as [Heq|Hq].
  - rewrite Heq in *. rewrite lookup_insert_eq.
    destruct Hobj as [[Hty (a & Ha)] | [Hty (s0 & Hs0)]].
    + left. split; [exact Hty|]. rewrite Hp in Ha. injection Ha as ->. eexists; reflexivity.
    + right. split; [exact Hty|]. rewrite Hp in Hs0. injection Hs0 as ->. eexists; reflexivity.
  - rewrite lookup_insert_ne by congruence. exact Hobj.
Qed.

Lemma reset_loop_flat (B : build)
  (rec : Z -> gmap Z object -> option (gmap Z object))
  (totem : Z) (t : Abyss_Totem) (n : nat) :
  forall h : gmap Z object,
    h !! totem = Some (ObjTotem t) ->
    (forall i : nat, (i < n)%nat -> flat_slot h totem t i) ->
    exists h' : gmap Z object,
      reset_loop B rec totem n h = Some h'
      /\ forall q : Z,
           h' !! q = if decide (q ∈ child_ptrs t n)
                     then reset_obj B <$> h !! q else h !! q.
Proof.
  induction n as [|n IH]; intros h Ht Hflat.
  - exists h. split; [reflexivity|]. intros q. cbn.
    destruct (decide (q ∈ [])) as [Hin|_]; [inversion Hin | reflexivity].
  - destruct (Hflat n ltac:(lia)) as (s & Hs & Hne & Hobj).
    assert (Hstep : exists o, h !! slot_ptr s = Some o
              /\ reset_child B rec s h = Some (<[slot_ptr s := reset_obj B o]> h)).
    { unfold reset_child.
      destruct Hobj as [[Hty (a & Ha)] | [Hty (s0 & Hs0)]]; rewrite Hty.
      - exists (ObjArena a). split; [exact Ha|].
        rewrite (load_arena_some _ _ _ Ha). reflexivity.
      - exists (ObjSurge s0). split; [exact Hs0|].
        rewrite (load_surge_some _ _ _ Hs0). reflexivity. }
    destruct Hstep as (o & Ho & Hrc).
    set (h1 := <[slot_ptr s := reset_obj B o]> h).
    destruct (IH h1) as (h' & Hloop & Hlook).
    { unfold h1. rewrite lookup_insert_ne by exact Hne. exact Ht. }
    { intros i Hi. unfold h1. apply flat_slot_insert; [exact Ho|]. apply Hflat. lia. }
    exists h'. split.
    + cbn [reset_loop]. rewrite (load_totem_some _ _ _ Ht). cbn [mbind option_bind].
      rewrite Hs. cbn [mbind option_bind]. rewrite Hrc. cbn [mbind option_bind].
      exact Hloop.
    + intros q. rewrite Hlook, child_ptrs_S, Hs. unfold h1.
      destruct (decide (q = slot_ptr s)) as [->|Hq].
      * rewrite lookup_insert_eq, Ho. cbn [fmap option_fmap option_map].
        rewrite reset_obj_idem.
        destruct (decide (slot_ptr s ∈ child_ptrs t n));
          destruct (decide (slot_ptr s ∈ child_ptrs t n ++ [slot_ptr s]))
          as [|Hn]; try reflexivity;
          exfalso; apply Hn; apply elem_of_app; right; apply list_elem_of_singleton; reflexivity.
      * rewrite lookup_insert_ne by congruence.
        destruct (decide (q ∈ child_ptrs t n)) as [Hin|Hnin];
          destruct (decide (q ∈ child_ptrs t n ++ [slot_ptr s])) as [Hin'|Hnin'];
          try reflexivity.
        -- exfalso. apply Hnin'. apply elem_of_app. left. exact Hin.
        -- exfalso. apply elem_of_app in Hin'. destruct Hin' as [Hin'|Hin'];
             [contradiction | apply list_elem_of_singleton in Hin'; contradiction].
Qed.

(** X22: on a Totem whose children are Arenas and Surges,
    [abyss_totem_reset] resets each child as its own reset does and
    changes nothing else in the store, and a second reset changes
    nothing. *)
Theorem totem_reset_flat
  (B : build) (fuel : nat) (h : gmap Z object) (totem : Z) (t : Abyss_Totem) :
  h !! totem = Some (ObjTotem t) ->
  (forall i : nat, (i < Z.to_nat (totem_head t + 1))%nat -> flat_slot h totem t i) ->
  exists h' : gmap Z object,
    abyss_totem_reset B (S fuel) totem h = Some h'
    /\ (forall q : Z,
          q ∈ child_ptrs t (Z.to_nat (totem_head t + 1)) ->
          h' !! q = reset_obj B <$> h !! q)
    /\ (forall q : Z,
          q ∉ child_ptrs t (Z.to_nat (totem_head t + 1)) ->
          h' !! q = h !! q)
    /\ abyss_totem_reset B (S fuel) totem h' = Some h'.
Proof.
  intros Ht Hflat.
  destruct (reset_loop_flat B (abyss_totem_reset B fuel) totem t _ h Ht Hflat)
    as (h' & Hloop & Hlook).
  assert (Hreset : abyss_totem_reset B (S fuel) totem h = Some h').
  { cbn [abyss_totem_reset]. rewrite (load_totem_some _ _ _ Ht). exact Hloop. }
  assert (Hin : forall q, q ∈ child_ptrs t (Z.to_nat (totem_head t + 1)) ->
                  h' !! q = reset_obj B <$> h !! q).
  { intros q Hq. rewrite Hlook. destruct (decide _); [reflexivity | contradiction]. }
  assert (Hout : forall q, q ∉ child_ptrs t (Z.to_nat (totem_head t + 1)) ->
                  h' !! q = h !! q).
  { intros q Hq. rewrite Hlook. destruct (decide _); [contradiction | reflexivity]. }
  exists h'. split; [exact Hreset|]. split; [exact Hin|]. split; [exact Hout|].
  (* a second reset changes nothing *)
  assert (Ht' : h' !! totem = Some (ObjTotem t)).
  { rewrite Hlook. destruct (decide _); [|exact Ht]. rewrite Ht. reflexivity. }
  assert (Hflat' : forall i : nat, (i < Z.to_nat (totem_head t + 1))%nat ->
                     flat_slot h' totem t i).
  { intros i Hi. destruct (Hflat i Hi) as (s & Hs & Hne & Hobj).
    exists s. split; [exact Hs|]. split; [exact Hne|].
    assert (Hsin : slot_ptr s ∈ child_ptrs t (Z.to_nat (totem_head t + 1))).
    { unfold child_ptrs. apply list_elem_of_omap. exists i. split.
      - apply list_elem_of_In, in_seq. lia.
      - rewrite Hs. reflexivity. }
    rewrite (Hin _ Hsin).
    destruct Hobj as [[Hty (a & Ha)] | [Hty (s0 & Hs0)]].
    - left. split; [exact Hty|]. rewrite Ha. eexists; reflexivity.
    - right. split; [exact Hty|]. rewrite Hs0. eexists; reflexivity. }
  destruct (reset_loop_flat B (abyss_totem_reset B fuel) totem t _ h' Ht' Hflat')
    as (h'' & Hloop' & Hlook').
  cbn [abyss_totem_reset]. rewrite (load_totem_some _ _ _ Ht').
  cbn [mbind option_bind]. rewrite Hloop'.
  f_equal. apply map_eq. intros q. rewrite Hlook', Hlook.
  destruct (decide _); [|reflexivity].
  destruct (h !! q) as [o|]; [|reflexivity].
  cbn [fmap option_fmap option_map]. rewrite reset_obj_idem. reflexivity.
Qed.

Lemma totem_contains_never_returns_witness :
  let t := snd (abyss_totem_push Runs.totem72 6000 ABYSS_TOTEM_T) in
  _abyss_totem_contains Runs.P 3 5000 2016 {[ 5000 := ObjTotem t ]} = None.
Proof.
  intros t.
  apply (totem_contains_never_returns Runs.P {[ 5000 := ObjTotem t ]} 5000 2016 t
           {| slot_ptr := 6000; slot_type := ABYSS_TOTEM_T |});
    [reflexivity | vm_compute; discriminate | reflexivity | reflexivity].
Defined.

Lemma totem_reset_flat_witness :
  exists h' : gmap Z object,
    abyss_totem_reset Runs.P 1 5000 Runs.retry_store = Some h'
    /\ h' !! 2000 = Some (ObjArena {| arena_offset := 0; arena_size := 16 |}).
Proof.
  destruct (totem_reset_flat Runs.P 0 Runs.retry_store 5000 Runs.retry_totem)
    as (h' & Hr & Hin & _).
  - reflexivity.
  - intros i Hi. change (Z.to_nat (totem_head Runs.retry_totem + 1)) with 2%nat in Hi.
    destruct i as [|[|i]]; [| |lia].
    + exists {| slot_ptr := 2000; slot_type := ABYSS_ARENA_T |}.
      split; [reflexivity|]. split; [discriminate|].
      left. split; [reflexivity|]. exists Runs.full_arena. reflexivity.
    + exists {| slot_ptr := 3000; slot_type := ABYSS_ARENA_T |}.
      split; [reflexivity|]. split; [discriminate|].
      left. split; [reflexivity|]. exists Runs.arena256. reflexivity.
  - exists h'. split; [exact Hr|].
    rewrite (Hin 2000); [reflexivity|].
    vm_compute. apply list_elem_of_here.
Defined.

Lemma free_loop_unclaimed (B : build)
  (rec : Z -> Z -> gmap Z object -> option (bool * gmap Z object * list warning))
  (h : gmap Z object) (totem ptr : Z) (t : Abyss_Totem) (n : nat) :
  h !! totem = Some (ObjTotem t) ->
  (forall i : nat, (i < n)%nat -> unclaimed_slot B h t ptr i) ->
  free_loop B rec totem ptr n h = Some (false, h, []).
Proof.
  intros Ht. induction n as [|n IH]; intros Hun; [reflexivity|].
  destruct (Hun n ltac:(lia)) as (s & Hs & Hobj).
  cbn [free_loop]. rewrite (load_totem_some _ _ _ Ht). cbn [mbind option_bind].
  rewrite Hs. cbn [mbind option_bind]. unfold free_child.
  destruct Hobj as [[Hty (a & Ha & Hc)] | [Hty (s0 & Hs0 & Hc)]]; rewrite Hty.
  - rewrite (load_arena_some _ _ _ Ha). cbn [mbind option_bind]. rewrite Hc.
    cbn [mbind option_bind]. rewrite IH by (intros i Hi; apply Hun; lia).
    reflexivity.
  - rewrite (load_surge_some _ _ _ Hs0). cbn [mbind option_bind]. rewrite Hc.
    cbn [mbind option_bind]. rewrite IH by (intros i Hi; apply Hun; lia).
    reflexivity.
Qed.

(** X24: when the range test of every child of a Totem of Arenas and
    Surges rejects the pointer, [abyss_totem_free] changes nothing and
    prints nothing. *)
Theorem totem_free_unclaimed_is_silent
  (B : build) (fuel : nat) (h : gmap Z object) (totem ptr : Z) (t : Abyss_Totem) :
  h !! totem = Some (ObjTotem t) ->
  (forall i : nat, (i < Z.to_nat (totem_head t + 1))%nat -> unclaimed_slot B h t ptr i) ->
  abyss_totem_free B (S fuel) totem ptr h = Some (h, []).
Proof.
  intros Ht Hun. unfold abyss_totem_free. cbn [_abyss_totem_free].
  rewrite (load_totem_some _ _ _ Ht). cbn [mbind option_bind].
  rewrite (free_loop_unclaimed B _ h totem ptr t _ Ht Hun). reflexivity.
Qed.

Lemma totem_free_unclaimed_is_silent_witness :
  abyss_totem_free Runs.P 1 5000 9999 Runs.one_arena_store
  = Some (Runs.one_arena_store, []).
Proof.
  apply (totem_free_unclaimed_is_silent Runs.P 0 Runs.one_arena_store 5000 9999
           (snd (abyss_totem_push Runs.totem72 2000 ABYSS_ARENA_T)));
    [reflexivity|].
  intros i Hi.
  change (Z.to_nat (totem_head (snd (abyss_totem_push Runs.totem72 2000 ABYSS_ARENA_T)) + 1))
    with 1%nat in Hi.
  destruct i as [|i]; [|lia].
  exists {| slot_ptr := 2000; slot_type := ABYSS_ARENA_T |}.
  split; [reflexivity|]. left. split; [reflexivity|].
  exists {| arena_offset := 8; arena_size := 240 |}. split; reflexivity.
Defined.

(** X25: when the head child of a Totem is a Surge whose range test
    accepts the pointer, [abyss_totem_free] does what [abyss_surge_free]
    on that Surge does with the handle of the pointer, changes no other
    allocator, and adds the Totem's own diagnostic to the child's. *)
Theorem totem_free_routes_to_surge
  (B : build) (fuel : nat) (h : gmap Z object) (totem ptr : Z) (t : Abyss_Totem)
  (p : Z) (s0 : Abyss_Surge) :
  h !! totem = Some (ObjTotem t) -> 0 <= totem_head t ->
  totem_allocators t !! totem_head t
    = Some {| slot_ptr := p; slot_type := ABYSS_SURGE_T |} ->
  h !! p = Some (ObjSurge s0) ->
  _abyss_surge_contains B p s0 ptr = true ->
  let r := abyss_surge_free B p s0 (abyss_handle_get_hdl B p ptr) in
  abyss_totem_free B (S fuel) totem ptr h
  = Some (<[p := ObjSurge (fst r)]> h, snd r ++ [WARN_totem_invalid_free]).
Proof.
  intros Ht Hh Hs Hs0 Hc r.
  destruct (head_loop_count t Hh) as [Hcnt Hi].
  unfold abyss_totem_free. cbn [_abyss_totem_free].
  rewrite (load_totem_some _ _ _ Ht). cbn [mbind option_bind].
  rewrite Hcnt. cbn [free_loop]. rewrite (load_totem_some _ _ _ Ht).
  cbn [mbind option_bind]. rewrite Hi, Hs. cbn [mbind option_bind].
  unfold free_child. cbn [slot_type slot_ptr].
  rewrite (load_surge_some _ _ _ Hs0). cbn [mbind option_bind]. rewrite Hc.
  fold r. destruct r as [s' w]. reflexivity.
Qed.

Lemma totem_free_routes_to_surge_witness :
  let t := snd (abyss_totem_push Runs.totem72 3000 ABYSS_SURGE_T) in
  let s0 := {| surge_size := 232; surge_offset := 8; surge_count := 1 |} in
  let h : gmap Z object := <[5000 := ObjTotem t]> {[ 3000 := ObjSurge s0 ]} in
  abyss_totem_free Runs.P 1 5000 3024 h
  = Some (<[3000 := ObjSurge {| surge_size := 232; surge_offset := 8; surge_count := 0 |}]> h,
          [WARN_totem_invalid_free]).
Proof.
  intros t s0 h.
  apply (totem_free_routes_to_surge Runs.P 0 h 5000 3024 t 3000 s0);
    [reflexivity | vm_compute; discriminate | reflexivity | reflexivity | reflexivity].
Defined.


(** ** Surge: the state after init *)

(** X26: with the default alignment and an aligned Arena header,
    [abyss_surge_init] on a buffer of at least the Surge header returns,
    without a diagnostic, a Surge with count 0, offset 0 and all bytes
    behind the header free; on that Surge the [free] of any non-null
    handle is reported as invalid and changes nothing, and a granted
    non-zero request sets count to 1. *)
Theorem surge_init_fresh (B : build) (buf size : Z) :
  ABYSS_DATA_ALIGN B = 8 ->
  0 <= sizeof_Arena B -> sizeof_Arena B + 7 < 2 ^ 64 -> sizeof_Arena B mod 8 = 0 ->
  sizeof_Surge B <= size -> size - sizeof_Surge B < 2 ^ 64 ->
  let s := {| surge_size := size - sizeof_Surge B;
              surge_offset := 0; surge_count := 0 |} in
  abyss_surge_init B buf size = (Some s, [])
  /\ (forall surge hdl : Z,
        abyss_surge_free B surge s hdl
        = (s, if hdl =? 0 then [] else [WARN_invalid_free]))
  /\ (forall surge n : Z,
        0 < n <= size - sizeof_Surge B ->
        surge_count (snd (abyss_surge_alloc B surge s n)) = 1).
Proof.
  intros Hal Hh Hmax Hmod Hsz Hlt s. split; [|split].
  - unfold abyss_surge_init.
    destruct (size <? sizeof_Surge B) eqn:E; [apply Z.ltb_lt in E; lia|].
    fold (_ABYSS_ROUND_S B (sizeof_Arena B)).
    rewrite round_s_aligned by lia.
    rewrite (size_t_small (size - sizeof_Surge B)) by lia. reflexivity.
  - intros surge hdl. unfold abyss_surge_free, abyss_handle_is_NULL.
    destruct (hdl =? 0); [reflexivity|].
    unfold _abyss_surge_contains. cbn [surge_offset s].
    pose proof (size_t_range
                  (intptr_t (surge_buf B surge - abyss_handle_get_ptr B surge hdl)))
      as Hr.
    destruct (size_t _ <? 0) eqn:E; [apply Z.ltb_lt in E; lia|].
    rewrite andb_false_r. reflexivity.
  - intros surge n Hn. unfold abyss_surge_alloc.
    destruct (n =? 0) eqn:E0; [apply Z.eqb_eq in E0; lia|].
    cbn [surge_size surge_offset s]. rewrite Z.sub_0_r.
    rewrite (size_t_small (size - sizeof_Surge B)) by lia.
    destruct (_ <? n) eqn:E1; [apply Z.ltb_lt in E1; lia|].
    reflexivity.
Qed.

Lemma surge_init_fresh_witness :
  abyss_surge_init (lp64 false) 1000 256
  = (Some {| surge_size := 232; surge_offset := 0; surge_count := 0 |}, []).
Proof.
  apply (surge_init_fresh (lp64 false) 1000 256); cbn; try reflexivity; lia.
Defined.

(** ** Handles: the macro applied to a call *)

(** X27: in handle mode the one-line form
    [abyss_handle_get_ptr(arena, abyss_arena_alloc(arena, n))] calls
    [abyss_arena_alloc] twice.  When the first request fits: if a second
    one fits as well, both blocks are taken and the pointer is that of the
    second block, past the end of the first; if the second one does not
    fit, one block is taken and the pointer is the address of the Arena
    itself, its header. *)
Theorem handle_get_ptr_of_alloc_twice
  (B : build) (arena : Z) (a : Abyss_Arena) (n : Z) :
  ABYSS_HANDLE_MODE B = true -> ABYSS_DATA_ALIGN B = 8 ->
  0 <= arena -> 0 < sizeof_Arena B ->
  arena + sizeof_Arena B + arena_size a + 7 < 2 ^ 64 ->
  0 <= arena_offset a <= arena_size a ->
  0 < n <= arena_size a - arena_offset a ->
  let o1 := 8 * ((arena_offset a + n + 7) / 8) in
  (o1 + n <= arena_size a ->
   handle_get_ptr_of_alloc B arena a n
   = (arena + sizeof_Arena B + o1,
      {| arena_offset := 8 * ((o1 + n + 7) / 8); arena_size := arena_size a |})
   /\ arena + sizeof_Arena B + arena_offset a + n <= arena + sizeof_Arena B + o1)
  /\ (o1 <= arena_size a < o1 + n ->
      handle_get_ptr_of_alloc B arena a n
      = (arena, {| arena_offset := o1; arena_size := arena_size a |})).
Proof.
  intros Hm Hal Hp Hh Hend Ho Hn o1.
  pose proof (Z.div_mod (arena_offset a + n + 7) 8 ltac:(lia)) as Hdm.
  pose proof (Z.mod_pos_bound (arena_offset a + n + 7) 8 ltac:(lia)) as Hb.
  assert (Ho1 : arena_offset a + n <= o1) by (unfold o1; lia).
  assert (Hfirst : abyss_arena_alloc B arena a n
                   = (arena_offset a + sizeof_Arena B,
                      {| arena_offset := o1; arena_size := arena_size a |})).
  { rewrite arena_alloc_granted_eq by lia. unfold abyss_handle_switch.
    rewrite Hm, size_t_small by lia. reflexivity. }
  unfold handle_get_ptr_of_alloc. rewrite Hm, Hfirst.
  destruct (arena_offset a + sizeof_Arena B =? 0) eqn:E0;
    [apply Z.eqb_eq in E0; lia|].
  split.
  - intros Hfit. split; [|lia].
    rewrite arena_alloc_granted_eq; cbn [arena_offset arena_size]; try lia.
    unfold abyss_handle_switch. rewrite Hm.
    rewrite (size_t_small (o1 + sizeof_Arena B)) by lia.
    rewrite size_t_small by lia. f_equal. lia.
  - intros Hfull.
    rewrite arena_alloc_refused_within_size; cbn [arena_offset arena_size]; try lia.
    unfold abyss_handle_NULL. rewrite Z.add_0_r, size_t_small by lia.
    reflexivity.
Qed.

(** The Arena at 1000 with offset 8 asked for 5 bytes in one line: the
    pointer is 1032, the second block, and the offset ends at 24. *)
Lemma handle_get_ptr_of_alloc_twice_witness :
  handle_get_ptr_of_alloc (lp64 true) 1000
    {| arena_offset := 8; arena_size := 240 |} 5
  = (1032, {| arena_offset := 24; arena_size := 240 |}).
Proof.
  assert (Hboth := proj1 (handle_get_ptr_of_alloc_twice (lp64 true) 1000
                            {| arena_offset := 8; arena_size := 240 |} 5
                            eq_refl eq_refl ltac:(lia) ltac:(cbn; lia)
                            ltac:(cbn; lia) ltac:(cbn; lia) ltac:(cbn; lia))).
  destruct Hboth as [Heq _]; [vm_compute; discriminate|].
  exact Heq.
Defined.
